(** * Debounced autosave of marked forms (app/static/shift_detail.js)

    The script selects every element matching [.autosave-form] once, and
    gives each one a closure holding a timer handle [timeoutId] and a
    handler [scheduleSave] bound to the "input" and "change" events.  The
    handler restarts an 800 ms timer; the timer's callback posts the form's
    current fields to the endpoint named by the form's [data-save-url].

    The script runs inside a browser.  The embedding keeps the script's own
    functions as Rocq functions over an explicit [state] of the window
    (clock, document, timer table, listener table, network log) and drives
    them by a list of environment actions: events reaching an element,
    edits of a control's value, replacement of an element's controls,
    insertion of new elements, the passage of time and the settlement of a
    fetch.

    What the model fixes about the browser:
    - time is a count of milliseconds; a timer runs when the clock reaches
      its due time, the earliest due timer first, older before newer;
    - timer handles are fresh integers greater than zero;
    - the script is the only code of the page: every timer and listener is
      its own, and nothing rewrites the class or [data-save-url] of an
      element (controls do change, and elements may be added);
    - [new FormData(form)] follows the platform's construction of the entry
      list for enabled or disabled, named or unnamed, checked or unchecked
      controls and buttons; file inputs, [dirname], [_charset_] and custom
      elements are left out;
    - a call records the entry list of its body and the content type the
      body's kind gives it, not the bytes put on the wire (the multipart
      boundary is the browser's choice). *)

From Stdlib Require Import NArith Lia.
From stdpp Require Import gmap strings list.

(** ** Values of the document *)

(** A submittable control of a form.  [Field] stands for the controls
    that submit their value as it is (text inputs, textareas, hidden
    inputs, a select with its chosen option), [Checkable] for checkboxes
    and radio buttons, [Button] for buttons.  [c_name] is the [name]
    attribute, empty when there is none; [c_value] the control's current
    value; [c_disabled] whether the control is disabled, by itself or by a
    fieldset. *)
Inductive control_kind := Field | Checkable | Button.

Record control := Control {
  c_name : string;
  c_value : string;
  c_kind : control_kind;
  c_disabled : bool;
  c_checked : bool;
}.

(** An enabled text-like control, and a checkbox. *)
Definition text_field (name value : string) : control :=
  Control name value Field false false.

Definition checkbox (name value : string) (checked : bool) : control :=
  Control name value Checkable false checked.

(** An element of the document, identified by its position in [document].
    [dataset_saveUrl] is [form.dataset.saveUrl]: [None] is JavaScript's
    [undefined] (no [data-save-url] attribute), [Some s] the attribute's
    text.  [controls] are the element's submittable controls, in tree
    order. *)
Record element := Element {
  classList : list string;
  dataset_saveUrl : option string;
  controls : list control;
}.

(** The selector [".autosave-form"]. *)
Definition matches_autosave (e : element) : bool :=
  bool_decide ("autosave-form" ∈ classList e).

(** ToBoolean on [undefined | string]: the test [!form.dataset.saveUrl]
    is the negation of this. *)
Definition truthy_string (v : option string) : bool :=
  match v with
  | Some s => negb (String.eqb s EmptyString)
  | None => false
  end.

(** ToBoolean on [null | number]: the test [if (timeoutId)]. *)
Definition truthy_handle (v : option N) : bool :=
  match v with
  | Some n => negb (n =? 0)%N
  | None => false
  end.

(** ToString on [undefined | string], as [fetch] applies to its first
    argument. *)
Definition ToString (v : option string) : string :=
  match v with
  | Some s => s
  | None => "undefined"
  end.

(** The entries one control adds when the entry list of its form is
    constructed without a submitter: nothing for a disabled control, a
    button or an unchecked checkbox or radio button, nothing for a control
    without a name, and otherwise its name with its value. *)
Definition control_entries (field : control) : list (string * string) :=
  if c_disabled field then []
  else
    match c_kind field with
    | Button => []
    | Checkable =>
        if negb (c_checked field) then []
        else if String.eqb (c_name field) EmptyString then []
        else [(c_name field, c_value field)]
    | Field =>
        if String.eqb (c_name field) EmptyString then []
        else [(c_name field, c_value field)]
    end.

(** [new FormData(form)]: the entry list of the form, constructed from the
    controls as they are when the constructor runs. *)
Definition FormData (form : element) : list (string * string) :=
  controls form ≫= control_entries.

(** ** The window *)

(** A pending timer.  Every timer of the page is created by
    [scheduleSave]; its callback is the arrow function closed over [form],
    so the timer records that form as [t_owner]. *)
Record timer := Timer {
  t_id : N;
  t_due : N;
  t_owner : nat;
}.

(** The kinds of object the script may pass as [body], and the content
    type [fetch] gives the request when it extracts the body: a [FormData]
    object is sent as [multipart/form-data], a [URLSearchParams] object as
    [application/x-www-form-urlencoded]. *)
Inductive BodyInit :=
  | FormData_object (entries : list (string * string))
  | URLSearchParams_object (entries : list (string * string)).

Inductive content_type :=
  | multipart_form_data
  | x_www_form_urlencoded.

Definition body_entries (b : BodyInit) : list (string * string) :=
  match b with
  | FormData_object entries => entries
  | URLSearchParams_object entries => entries
  end.

Definition body_content_type (b : BodyInit) : content_type :=
  match b with
  | FormData_object _ => multipart_form_data
  | URLSearchParams_object _ => x_www_form_urlencoded
  end.

(** A call handed to the network by [fetch].  [r_time] and [r_origin] are
    bookkeeping of the model (when the call was issued, and from which
    form's callback); the remaining fields are the arguments of [fetch],
    the body as its entry list and its content type. *)
Record request := Request {
  r_time : N;
  r_origin : nat;
  r_url : string;
  r_method : string;
  r_headers : list (string * string);
  r_body : list (string * string);
  r_content_type : content_type;
}.

(** How the network settles the promise returned by [fetch]. *)
Inductive outcome :=
  | Fulfilled (status : N) (body : string)
  | Rejected (reason : string).

(** Completion of a promise reaction. *)
Inductive completion :=
  | Return_undefined
  | Throw (reason : string).

Record state := State {
  clock : N;                         (* milliseconds *)
  document : list element;
  timeoutId : gmap nat (option N);   (* the [let timeoutId] of each closure *)
  listeners : list (nat * string);   (* (element, event type) bound to [scheduleSave] *)
  next_handle : N;
  timers : list timer;               (* pending timers, in creation order *)
  requests : list request;           (* network log, in order of issue *)
  inflight : list nat;               (* positions in [requests] not yet settled *)
  unhandled : list (nat * string);   (* unhandled promise rejections *)
}.

Definition set_clock (c : N) (st : state) : state :=
  State c (document st) (timeoutId st) (listeners st) (next_handle st)
        (timers st) (requests st) (inflight st) (unhandled st).

Definition set_document (d : list element) (st : state) : state :=
  State (clock st) d (timeoutId st) (listeners st) (next_handle st)
        (timers st) (requests st) (inflight st) (unhandled st).

Definition set_timeoutId (m : gmap nat (option N)) (st : state) : state :=
  State (clock st) (document st) m (listeners st) (next_handle st)
        (timers st) (requests st) (inflight st) (unhandled st).

Definition set_listeners (l : list (nat * string)) (st : state) : state :=
  State (clock st) (document st) (timeoutId st) l (next_handle st)
        (timers st) (requests st) (inflight st) (unhandled st).

Definition set_timers (ts : list timer) (st : state) : state :=
  State (clock st) (document st) (timeoutId st) (listeners st) (next_handle st)
        ts (requests st) (inflight st) (unhandled st).

(** ** Browser primitives *)

(** [window.setTimeout(callback, delay)]: the handle is a fresh integer
    greater than zero. *)
Definition setTimeout (owner : nat) (delay : N) (st : state) : N * state :=
  let h := next_handle st in
  (h, State (clock st) (document st) (timeoutId st) (listeners st) (h + 1)%N
            (timers st ++ [Timer h (clock st + delay)%N owner])
            (requests st) (inflight st) (unhandled st)).

(** [window.clearTimeout(handle)]: drops the timer with that handle; a
    handle of no pending timer changes nothing. *)
Definition clearTimeout (v : option N) (st : state) : state :=
  match v with
  | Some h => set_timers (filter (λ t, t_id t ≠ h) (timers st)) st
  | None => st
  end.

(** [fetch(url, {method, headers, body})]: the call is logged and its
    promise is left pending. *)
Definition fetch (url method : string) (headers : list (string * string))
    (body : BodyInit) (origin : nat) (st : state) : state :=
  State (clock st) (document st) (timeoutId st) (listeners st) (next_handle st)
        (timers st)
        (requests st
           ++ [Request (clock st) origin url method headers
                 (body_entries body) (body_content_type body)])
        (inflight st ++ [length (requests st)]) (unhandled st).

(** ** The script *)

Definition DELAY : N := 800.

(** The arrow function given to [setTimeout]. *)
Definition save_callback (form : nat) (st : state) : state :=
  match document st !! form with
  | Some e =>
      let payload := FormData_object (FormData e) in
      fetch (ToString (dataset_saveUrl e)) "POST"
            [("X-Requested-With", "fetch")] payload form st
  | None => st
  end.

(** [scheduleSave] of the closure created for [form]. *)
Definition scheduleSave (form : nat) (st : state) : state :=
  match document st !! form, timeoutId st !! form with
  | Some e, Some cell =>
      if negb (truthy_string (dataset_saveUrl e)) then st
      else
        let st1 := if truthy_handle cell then clearTimeout cell st else st in
        let '(h, st2) := setTimeout form DELAY st1 in
        set_timeoutId (<[form := Some h]> (timeoutId st2)) st2
  | _, _ => st
  end.

(** The handler [() => {}] given to [.catch]. *)
Definition on_rejected (reason : string) : completion := Return_undefined.

(** [promise.catch(handler)]: the outcome of the derived promise. *)
Definition promise_catch (handler : string → completion) (o : outcome) : outcome :=
  match o with
  | Fulfilled s b => Fulfilled s b
  | Rejected r =>
      match handler r with
      | Return_undefined => Fulfilled 0 EmptyString
      | Throw r' => Rejected r'
      end
  end.

(** [document.querySelectorAll(".autosave-form")], in document order;
    [i] is the position of the first element of [doc]. *)
Fixpoint querySelectorAll (i : nat) (doc : list element) : list nat :=
  match doc with
  | [] => []
  | e :: doc' =>
      if matches_autosave e then i :: querySelectorAll (S i) doc'
      else querySelectorAll (S i) doc'
  end.

(** [const autosaveForms = document.querySelectorAll(".autosave-form")]. *)
Definition autosaveForms (doc : list element) : list nat :=
  querySelectorAll 0 doc.

(** One iteration of [autosaveForms.forEach]: a new closure with
    [timeoutId = null] and two listeners. *)
Definition forEach_body (st : state) (form : nat) : state :=
  set_listeners (listeners st ++ [(form, "input"); (form, "change")])
    (set_timeoutId (<[form := None]> (timeoutId st)) st).

(** Running the script at time [now] on the document [doc]. *)
Definition load (now : N) (doc : list element) : state :=
  fold_left forEach_body (autosaveForms doc)
    (State now doc ∅ [] 1%N [] [] [] []).

(** ** The event loop *)

Inductive action :=
  | Dispatch (el : nat) (type : string)     (* an event of that type reaches [el] *)
  | Edit (el k : nat) (value : string)      (* control [k] of [el] gets a new value *)
  | Insert (e : element)                    (* a new element joins the document *)
  | Wait (dt : N)                           (* [dt] milliseconds pass *)
  | Settle (k : nat) (o : outcome)          (* the network settles request [k] *)
  | SetControls (el : nat) (cs : list control).
      (* the controls of [el] become [cs]: controls are added, removed,
         checked, disabled, renamed *)

(** Event dispatch: the listeners of [el] for [type] run in registration
    order. *)
Definition dispatch (el : nat) (type : string) (st : state) : state :=
  fold_left
    (λ s l, if bool_decide (l = (el, type)) then scheduleSave l.1 s else s)
    (listeners st) st.

Definition set_value (v : string) (c : control) : control :=
  Control (c_name c) v (c_kind c) (c_disabled c) (c_checked c).

Definition edit (el k : nat) (v : string) (st : state) : state :=
  set_document
    (alter (λ e, Element (classList e) (dataset_saveUrl e)
                         (alter (set_value v) k (controls e)))
           el (document st)) st.

Definition set_controls (el : nat) (cs : list control) (st : state) : state :=
  set_document
    (alter (λ e, Element (classList e) (dataset_saveUrl e) cs)
           el (document st)) st.

Definition insert_element (e : element) (st : state) : state :=
  set_document (document st ++ [e]) st.

Definition earlier (a b : timer) : timer :=
  if (t_due b <? t_due a)%N then b else a.

(** The timer to run next among those due by [limit]: the earliest one,
    the oldest one among equals. *)
Fixpoint next_due (limit : N) (ts : list timer) : option timer :=
  match ts with
  | [] => None
  | t :: ts' =>
      if (t_due t <=? limit)%N then
        Some (match next_due limit ts' with
              | Some t' => earlier t t'
              | None => t
              end)
      else next_due limit ts'
  end.

(** Expiry of [t]: it leaves the timer table, the clock reaches its due
    time, and its callback runs. *)
Definition expire (t : timer) (st : state) : state :=
  save_callback (t_owner t)
    (set_clock (N.max (clock st) (t_due t))
       (set_timers (filter (λ t', t_id t' ≠ t_id t) (timers st)) st)).

Fixpoint run_timers (fuel : nat) (limit : N) (st : state) : state :=
  match fuel with
  | O => st
  | S fuel' =>
      match next_due limit (timers st) with
      | Some t => run_timers fuel' limit (expire t st)
      | None => st
      end
  end.

(** No callback of this page creates a timer, so one round per pending
    timer empties the set of due timers (lemma [wait_no_due]). *)
Definition wait (dt : N) (st : state) : state :=
  let limit := (clock st + dt)%N in
  set_clock limit (run_timers (length (timers st)) limit st).

(** Settlement of the promise of request [k]: the reaction registered by
    [.catch(() => {})] runs; a rejection of the derived promise, which has
    no reaction, is an unhandled rejection. *)
Definition settle (k : nat) (o : outcome) (st : state) : state :=
  if bool_decide (k ∈ inflight st) then
    State (clock st) (document st) (timeoutId st) (listeners st) (next_handle st)
          (timers st) (requests st)
          (filter (λ j, j ≠ k) (inflight st))
          (match promise_catch on_rejected o with
           | Fulfilled _ _ => unhandled st
           | Rejected r => unhandled st ++ [(k, r)]
           end)
  else st.

Definition step (a : action) (st : state) : state :=
  match a with
  | Dispatch el type => dispatch el type st
  | Edit el k v => edit el k v st
  | Insert e => insert_element e st
  | Wait dt => wait dt st
  | Settle k o => settle k o st
  | SetControls el cs => set_controls el cs st
  end.

Definition run (acts : list action) (st : state) : state :=
  fold_left (λ s a, step a s) acts st.

(** ** Observations *)

Definition timers_of (form : nat) (st : state) : list timer :=
  filter (λ t, t_owner t = form) (timers st).

Definition requests_of (form : nat) (st : state) : list request :=
  filter (λ r, r_origin r = form) (requests st).

(** The calls a form's pending timers (given by their due times) issue
    when the clock advances to [limit]. *)
Definition save_request (form : nat) (e : element) (time : N) : request :=
  Request time form (ToString (dataset_saveUrl e)) "POST"
          [("X-Requested-With", "fetch")] (FormData e) multipart_form_data.

Definition fired (form : nat) (e : element) (limit : N) (dues : list N) : list request :=
  save_request form e <$> filter (λ d, (d ≤ limit)%N) dues.

(** What an observer of one form sees of the window. *)
Record view := View {
  v_clock : N;
  v_element : option element;
  v_bound : bool;
  v_pending : list N;
  v_sent : list request;
}.

Definition observe (form : nat) (st : state) : view :=
  View (clock st) (document st !! form)
       (bool_decide (is_Some (timeoutId st !! form)))
       (t_due <$> timers_of form st) (requests_of form st).

(** Actions addressed to an element other than [form]. *)
Definition on_other (form : nat) (a : action) : bool :=
  match a with
  | Dispatch el _ => negb (el =? form)
  | Edit el _ _ => negb (el =? form)
  | SetControls el _ => negb (el =? form)
  | _ => false
  end.

Definition is_settle (a : action) : bool :=
  match a with
  | Settle _ _ => true
  | _ => false
  end.

(** The two event types the script listens to. *)
Definition qualifying (type : string) : Prop :=
  type = "input" ∨ type = "change".

(** A burst on [form]: after a first event, each further event follows
    the previous one by [gap] milliseconds. *)
Definition burst_tail (form : nat) (rest : list (N * string)) : list action :=
  rest ≫= λ p, [Wait p.1; Dispatch form p.2].

Definition gaps (rest : list (N * string)) : N :=
  foldr (λ p acc, (p.1 + acc)%N) 0%N rest.

(** A further event of a burst: less than [DELAY] after the previous one,
    of a type the script listens to. *)
Definition in_burst (p : N * string) : bool :=
  (p.1 <? DELAY)%N && bool_decide (qualifying p.2).

(** [n] rounds of one event followed by [dt] milliseconds of waiting. *)
Fixpoint cycles (form : nat) (type : string) (dt : N) (n : nat) : list action :=
  match n with
  | O => []
  | S n' => Dispatch form type :: Wait dt :: cycles form type dt n'
  end.

(** Total time an action list lets pass. *)
Definition elapsed (acts : list action) : N :=
  foldr (λ a acc, match a with Wait d => (d + acc)%N | _ => acc end) 0%N acts.

(** [st'] is [st] after every timer due by [limit] has expired: nothing
    but the clock, the timer table and the network log differs, and each
    form's new calls are those of its due timers. *)
Definition advanced (limit : N) (st st' : state) : Prop :=
  document st' = document st
  ∧ timeoutId st' = timeoutId st
  ∧ listeners st' = listeners st
  ∧ next_handle st' = next_handle st
  ∧ unhandled st' = unhandled st
  ∧ timers st' = filter (λ t, (limit < t_due t)%N) (timers st)
  ∧ ∃ new, requests st' = requests st ++ new
      ∧ ∀ form, filter (λ r, r_origin r = form) new =
          from_option
            (λ e, fired form e limit (t_due <$> timers_of form st))
            [] (document st !! form).

(** Actions that take no time and are no event on [form]. *)
Definition silent (form : nat) (a : action) : bool :=
  match a with
  | Dispatch el _ => negb (el =? form)
  | Wait _ => false
  | _ => true
  end.

(** Quiet stretch for [form]: time may pass and other things may happen,
    but no event reaches [form]. *)
Definition quiet (form : nat) (a : action) : bool :=
  match a with
  | Wait _ => true
  | _ => silent form a
  end.

(** [st'] shows [form] the same clock, timer, handle and calls as [st]. *)
Definition undisturbed (form : nat) (st st' : state) : Prop :=
  clock st' = clock st
  ∧ timers_of form st' = timers_of form st
  ∧ requests_of form st' = requests_of form st
  ∧ timeoutId st' !! form = timeoutId st !! form.

(** Same attributes; the controls may differ. *)
Definition same_attributes (e e' : element) : Prop :=
  classList e' = classList e ∧ dataset_saveUrl e' = dataset_saveUrl e.

(** Two states that show [form] the same clock, element, pending due
    times and calls (handles, and everything about other forms, may
    differ). *)
Definition agree (form : nat) (s1 s2 : state) : Prop :=
  clock s1 = clock s2
  ∧ document s1 !! form = document s2 !! form
  ∧ length (document s1) = length (document s2)
  ∧ t_due <$> timers_of form s1 = t_due <$> timers_of form s2
  ∧ requests_of form s1 = requests_of form s2.

(** The actions that remain when those addressed to other elements are
    taken out. *)
Definition own_actions (form : nat) (acts : list action) : list action :=
  List.filter (λ a, negb (on_other form a)) acts.

(** The same element without its [data-save-url] attribute, and the
    window whose document has [form] replaced by it. *)
Definition drop_endpoint (e : element) : element :=
  Element (classList e) None (controls e).

Definition without_endpoint (form : nat) (st : state) : state :=
  set_document (alter drop_endpoint form (document st)) st.

(** Events of a listened type addressed to [form]. *)
Definition is_event_on (form : nat) (a : action) : bool :=
  match a with
  | Dispatch el type => (el =? form) && bool_decide (qualifying type)
  | _ => false
  end.

Definition count_events (form : nat) (acts : list action) : nat :=
  length (List.filter (is_event_on form) acts).

(** Clock readings at which such events happen when [acts] start at
    [now]. *)
Fixpoint event_times (form : nat) (now : N) (acts : list action) : list N :=
  match acts with
  | [] => []
  | Wait dt :: acts' => event_times form (now + dt) acts'
  | a :: acts' =>
      if is_event_on form a then now :: event_times form now acts'
      else event_times form now acts'
  end.

(** A log whose calls are in order of time. *)
Definition chronological (l : list request) : Prop :=
  ∀ i j a b, i ≤ j → l !! i = Some a → l !! j = Some b →
    (r_time a ≤ r_time b)%N.

(** The controls a form submits: enabled, named, no button, and checked
    when they are checkboxes or radio buttons; and the entry list they
    make, in the order of the controls. *)
Definition successful (c : control) : Prop :=
  c_disabled c = false
  ∧ c_kind c ≠ Button
  ∧ (c_kind c = Checkable → c_checked c = true)
  ∧ c_name c ≠ EmptyString.

Definition control_kind_eq_dec : EqDecision control_kind.
Proof. solve_decision. Defined.

#[export] Existing Instance control_kind_eq_dec.

Definition successful_dec (c : control) : Decision (successful c).
Proof. unfold successful. apply _. Defined.

#[export] Existing Instance successful_dec.

Definition submitted_entries (cs : list control) : list (string * string) :=
  (λ c, (c_name c, c_value c)) <$> filter successful cs.

(** ** Invariant of the window *)

Definition listeners_for (sel : list nat) : list (nat * string) :=
  sel ≫= λ el, [(el, "input"); (el, "change")].

Definition sent_by_script (st : state) (r : request) : Prop :=
  ∃ e, document st !! r_origin r = Some e
     ∧ truthy_string (dataset_saveUrl e) = true
     ∧ r_url r = ToString (dataset_saveUrl e)
     ∧ r_method r = "POST"
     ∧ r_headers r = [("X-Requested-With", "fetch")]
     ∧ is_Some (timeoutId st !! r_origin r).

Record wf (sel : list nat) (st : state) : Prop := {
  wf_owner : ∀ t, t ∈ timers st →
    timeoutId st !! t_owner t = Some (Some (t_id t));
  wf_single : NoDup (t_owner <$> timers st);
  wf_due : ∀ t, t ∈ timers st → (clock st ≤ t_due t)%N;
  wf_handle : ∀ el h, timeoutId st !! el = Some (Some h) →
    (0 < h < next_handle st)%N;
  wf_inj : ∀ el el' h, timeoutId st !! el = Some (Some h) →
    timeoutId st !! el' = Some (Some h) → el = el';
  wf_url : ∀ t, t ∈ timers st →
    ∃ e, document st !! t_owner t = Some e
       ∧ truthy_string (dataset_saveUrl e) = true;
  wf_sel : NoDup sel;
  wf_listeners : listeners st = listeners_for sel;
  wf_bound : ∀ el, el ∈ sel ↔ is_Some (timeoutId st !! el);
  wf_next : (0 < next_handle st)%N;
  wf_requests : ∀ r, r ∈ requests st → sent_by_script st r;
  wf_unhandled : unhandled st = [];
}.

(** Closes the leading conjuncts that hold by computation or assumption. *)
Ltac split_done := repeat (split; [done|]).

(** ** Scenario of the specification *)

Definition shift_form : element :=
  Element ["autosave-form"] (Some "/save/42") [text_field "notes" EmptyString].

Definition notes_form : element :=
  Element ["autosave-form"] (Some "/save/42") [text_field "notes" "a"].

(** A marked form without [data-save-url], and one with an empty one. *)
Definition plain_form : element :=
  Element ["autosave-form"] None [text_field "notes" EmptyString].

Definition blank_form : element :=
  Element ["autosave-form"] (Some EmptyString) [text_field "notes" EmptyString].

(** A second marked form, with its own endpoint. *)
Definition other_form : element :=
  Element ["autosave-form"] (Some "/save/7") [text_field "hours" "8"].

(** An element with an endpoint but without the marker class. *)
Definition unmarked_form : element :=
  Element ["card"] (Some "/save/9") [text_field "title" "t"].

(** A form with a control of every sort: a text field, a disabled field,
    a field without a name, an unchecked checkbox and a button; and the
    same controls with the text changed and the checkbox checked. *)
Definition survey_form : element :=
  Element ["autosave-form"] (Some "/save/5")
    [ text_field "title" "t";
      Control "secret" "s" Field true false;
      text_field EmptyString "anonymous";
      checkbox "done" "on" false;
      Control "go" "Save" Button false false ].

Definition survey_controls_later : list control :=
  [ text_field "title" "tt";
    Control "secret" "s" Field true false;
    text_field EmptyString "anonymous";
    checkbox "done" "on" true;
    Control "go" "Save" Button false false ].

Definition typing_scenario : list action :=
  [ Edit 0 0 "x"; Dispatch 0 "input";
    Wait 300; Edit 0 0 "xy"; Dispatch 0 "input";
    Wait 2000 ].

Example scenario_requests :
  requests (run typing_scenario (load 0 [shift_form])) =
  [ Request 1100 0 "/save/42" "POST" [("X-Requested-With", "fetch")]
            [("notes", "xy")] multipart_form_data ].
Proof. vm_compute. reflexivity. Qed.

(** ** Lists *)

Lemma filter_agree {A} (P Q : A → Prop) `{∀ x, Decision (P x)}
    `{∀ x, Decision (Q x)} (l : list A) :
  (∀ x, x ∈ l → P x ↔ Q x) → filter P l = filter Q l.
Proof.
  induction l as [|a l IH]; intros HPQ; [done|].
  rewrite !filter_cons.
  assert (P a ↔ Q a) as Ha by (apply HPQ; left).
  rewrite IH; [|intros x Hx; apply HPQ; by right].
  destruct (decide (P a)), (decide (Q a)); tauto.
Qed.

Lemma filter_all {A} (P : A → Prop) `{∀ x, Decision (P x)} (l : list A) :
  (∀ x, x ∈ l → P x) → filter P l = l.
Proof.
  induction l as [|a l IH]; intros HP; [done|].
  rewrite filter_cons_True; [|apply HP; left].
  f_equal. apply IH. intros x Hx. apply HP. by right.
Qed.

Lemma filter_none {A} (P : A → Prop) `{∀ x, Decision (P x)} (l : list A) :
  (∀ x, x ∈ l → ¬ P x) → filter P l = [].
Proof.
  induction l as [|a l IH]; intros HP; [done|].
  rewrite filter_cons_False; [|apply HP; left].
  apply IH. intros x Hx. apply HP. by right.
Qed.

(** ** Dispatch runs the handler of a bound form once *)

Lemma dispatch_fold el ty sel s :
  NoDup sel →
  fold_left
    (λ s l, if bool_decide (l = (el, ty)) then scheduleSave l.1 s else s)
    (listeners_for sel) s
  = if bool_decide (el ∈ sel ∧ qualifying ty) then scheduleSave el s else s.
Proof.
  intros Hnd. revert s. induction Hnd as [|a sel Ha Hnd IH]; intros s.
  - rewrite bool_decide_eq_false_2; [done|]. intros [H _]. inversion H.
  - unfold listeners_for in *. cbn [mbind list_bind app fold_left].
    destruct (decide (a = el)) as [->|Hne].
    + assert (∀ s', fold_left
         (λ s l, if bool_decide (l = (el, ty)) then scheduleSave l.1 s else s)
         (sel ≫= λ el, [(el, "input"); (el, "change")]) s' = s') as Hrest.
      { intros s'. rewrite IH. rewrite bool_decide_eq_false_2; [done|]. tauto. }
      rewrite Hrest.
      destruct (decide (ty = "input")) as [->|Hi].
      * rewrite (bool_decide_eq_true_2 ((el, "input") = (el, "input"))); [|done].
        rewrite (bool_decide_eq_false_2 ((el, "change") = (el, "input"))); [|congruence].
        rewrite bool_decide_eq_true_2; [done|]. split; [left|by left].
      * rewrite (bool_decide_eq_false_2 ((el, "input") = (el, ty))); [|congruence].
        destruct (decide (ty = "change")) as [->|Hc].
        -- rewrite (bool_decide_eq_true_2 ((el, "change") = (el, "change"))); [|done].
           rewrite bool_decide_eq_true_2; [done|]. split; [left|by right].
        -- rewrite (bool_decide_eq_false_2 ((el, "change") = (el, ty))); [|congruence].
           rewrite bool_decide_eq_false_2; [done|]. intros [_ [?|?]]; done.
    + rewrite (bool_decide_eq_false_2 ((a, "input") = (el, ty))); [|congruence].
      rewrite (bool_decide_eq_false_2 ((a, "change") = (el, ty))); [|congruence].
      rewrite IH.
      rewrite (bool_decide_ext (el ∈ sel ∧ qualifying ty)
                 (el ∈ a :: sel ∧ qualifying ty)); [done|].
      rewrite elem_of_cons.
      split; [intros [? ?]; split; [by right|done]|].
      intros [[?|?] ?]; [congruence|done].
Qed.

Lemma dispatch_spec sel st el ty :
  wf sel st →
  dispatch el ty st =
  if bool_decide (el ∈ sel ∧ qualifying ty) then scheduleSave el st else st.
Proof.
  intros Hwf. unfold dispatch. rewrite (wf_listeners _ _ Hwf).
  apply dispatch_fold, (wf_sel _ _ Hwf).
Qed.

(** ** The handler *)

Lemma scheduleSave_inert form e st :
  document st !! form = Some e →
  truthy_string (dataset_saveUrl e) = false →
  scheduleSave form st = st.
Proof.
  intros Hdoc Hurl. unfold scheduleSave. rewrite Hdoc, Hurl.
  by destruct (timeoutId st !! form).
Qed.

Lemma scheduleSave_unbound form st :
  timeoutId st !! form = None → scheduleSave form st = st.
Proof.
  intros Hcell. unfold scheduleSave. rewrite Hcell.
  by destruct (document st !! form).
Qed.

Lemma owner_of_handle sel st t form h :
  wf sel st → t ∈ timers st →
  timeoutId st !! form = Some (Some h) →
  t_id t ≠ h ↔ t_owner t ≠ form.
Proof.
  intros Hwf Ht Hcell. pose proof (wf_owner _ _ Hwf t Ht) as Hown. split.
  - intros Hid Heq. rewrite Heq, Hcell in Hown. congruence.
  - intros Hneq Heq. apply Hneq. rewrite Heq in Hown.
    eapply (wf_inj _ _ Hwf); eauto.
Qed.

(** On a bound form with an endpoint the handler replaces the form's
    timer by a fresh one and stores the new handle. *)
Lemma scheduleSave_spec sel st form e :
  wf sel st →
  document st !! form = Some e →
  truthy_string (dataset_saveUrl e) = true →
  is_Some (timeoutId st !! form) →
  scheduleSave form st =
  State (clock st) (document st)
        (<[form := Some (next_handle st)]> (timeoutId st)) (listeners st)
        (next_handle st + 1)%N
        (filter (λ t, t_owner t ≠ form) (timers st)
           ++ [Timer (next_handle st) (clock st + DELAY)%N form])
        (requests st) (inflight st) (unhandled st).
Proof.
  intros Hwf Hdoc Hurl [cell Hcell].
  unfold scheduleSave. rewrite Hdoc, Hcell, Hurl. cbn [negb].
  destruct cell as [h|].
  - destruct (wf_handle _ _ Hwf _ _ Hcell) as [Hpos _].
    unfold truthy_handle.
    replace (h =? 0)%N with false by (symmetry; apply N.eqb_neq; lia).
    unfold set_timeoutId, setTimeout, clearTimeout, set_timers. cbn.
    do 2 f_equal.
    apply filter_agree. intros t Ht. by eapply owner_of_handle.
  - unfold set_timeoutId, setTimeout. cbn.
    do 2 f_equal. symmetry. apply filter_all.
    intros t Ht Heq. pose proof (wf_owner _ _ Hwf t Ht) as Hown.
    rewrite Heq, Hcell in Hown. congruence.
Qed.

Lemma scheduleSave_wf sel st form :
  wf sel st → wf sel (scheduleSave form st).
Proof.
  intros Hwf.
  destruct (document st !! form) as [e|] eqn:Hdoc;
    [|unfold scheduleSave; by rewrite Hdoc].
  destruct (timeoutId st !! form) as [cell|] eqn:Hcell;
    [|by rewrite scheduleSave_unbound].
  destruct (truthy_string (dataset_saveUrl e)) eqn:Hurl;
    [|by erewrite scheduleSave_inert].
  erewrite scheduleSave_spec by eauto.
  destruct Hwf as [Hown Hone Hdue Hh Hinj Hu Hsel Hl Hb Hn Hr Hun].
  constructor; cbn; try done.
  - intros t [[Hne Ht]%list_elem_of_filter | ->%list_elem_of_singleton]%elem_of_app.
    + rewrite lookup_insert_ne by done. by apply Hown.
    + cbn. by rewrite lookup_insert_eq.
  - rewrite fmap_app. apply NoDup_app. split; [|split].
    + eapply sublist_NoDup; [exact Hone|].
      apply fmap_sublist, sublist_filter.
    + intros x [t [-> [Hne Ht]%list_elem_of_filter]]%list_elem_of_fmap.
      cbn. rewrite list_elem_of_singleton. done.
    + apply NoDup_singleton.
  - intros t [[Hne Ht]%list_elem_of_filter | ->%list_elem_of_singleton]%elem_of_app.
    + by apply Hdue.
    + cbn. lia.
  - intros el h. destruct (decide (el = form)) as [->|Hne].
    + rewrite lookup_insert_eq. intros [= <-]. lia.
    + rewrite lookup_insert_ne by done. intros H%Hh. lia.
  - intros el el' h.
    destruct (decide (el = form)) as [->|Hne], (decide (el' = form)) as [->|Hne'];
      rewrite ?lookup_insert_eq, ?lookup_insert_ne by done; [done| | |by apply Hinj].
    + intros [= <-] H%Hh. lia.
    + intros H%Hh [= <-]. lia.
  - intros t [[Hne Ht]%list_elem_of_filter | ->%list_elem_of_singleton]%elem_of_app.
    + by apply Hu.
    + cbn. eauto.
  - intros el. rewrite Hb. destruct (decide (el = form)) as [->|Hne].
    + rewrite lookup_insert_eq, Hcell. split; eauto.
    + by rewrite lookup_insert_ne.
  - lia.
  - intros r Hin.
    destruct (Hr r Hin) as (e' & Hdoc' & Hurl' & Hrurl & Hm & Hhd & Hbd).
    exists e'. split_done.
    cbn. destruct (decide (form = r_origin r)) as [Heq|Hne].
    + rewrite <- Heq, lookup_insert_eq. eauto.
    + by rewrite lookup_insert_ne.
Qed.

(** ** Choice of the next timer *)

Lemma next_due_None limit ts :
  next_due limit ts = None → ∀ t, t ∈ ts → (limit < t_due t)%N.
Proof.
  induction ts as [|a ts IH]; cbn; intros Hn t Ht; [by inversion Ht|].
  destruct (t_due a <=? limit)%N eqn:Ha; [done|].
  apply N.leb_gt in Ha.
  apply elem_of_cons in Ht as [->|Ht]; [done|by apply IH].
Qed.

Lemma next_due_Some limit ts t :
  next_due limit ts = Some t →
  t ∈ ts ∧ (t_due t ≤ limit)%N
  ∧ ∀ t', t' ∈ ts → (t_due t' ≤ limit)%N → (t_due t ≤ t_due t')%N.
Proof.
  revert t. induction ts as [|a ts IH]; cbn; intros t Hs; [done|].
  destruct (t_due a <=? limit)%N eqn:Ha.
  - apply N.leb_le in Ha.
    destruct (next_due limit ts) as [t1|] eqn:Hrest.
    + destruct (IH t1 eq_refl) as (Hin & Hle & Hmin).
      injection Hs as <-. unfold earlier.
      destruct (t_due t1 <? t_due a)%N eqn:Hlt.
      * apply N.ltb_lt in Hlt. split; [by right|]. split; [done|].
        intros t' [->|Ht']%elem_of_cons Hl; [lia|by apply Hmin].
      * apply N.ltb_ge in Hlt. split; [by left|]. split; [done|].
        intros t' [->|Ht']%elem_of_cons Hl; [lia|].
        specialize (Hmin t' Ht' Hl). lia.
    + injection Hs as <-. split; [by left|]. split; [done|].
      intros t' [->|Ht']%elem_of_cons Hl; [lia|].
      pose proof (next_due_None _ _ Hrest t' Ht'). lia.
  - apply N.leb_gt in Ha.
    destruct (IH t Hs) as (Hin & Hle & Hmin).
    split; [by right|]. split; [done|].
    intros t' [->|Ht']%elem_of_cons Hl; [lia|by apply Hmin].
Qed.

Lemma next_due_earliest limit ts t :
  next_due limit ts = Some t →
  t ∈ ts ∧ ∀ t', t' ∈ ts → (t_due t ≤ t_due t')%N.
Proof.
  intros (Ht & Hle & Hmin)%next_due_Some. split; [done|].
  intros t' Ht'. destruct (decide (t_due t' ≤ limit)%N); [by apply Hmin|lia].
Qed.

(** ** One owner, one timer *)

Lemma same_owner_same_timer (ts : list timer) x y :
  NoDup (t_owner <$> ts) → x ∈ ts → y ∈ ts → t_owner x = t_owner y → x = y.
Proof.
  induction ts as [|a ts IH]; intros Hnd Hx Hy Heq; [by inversion Hx|].
  rewrite fmap_cons in Hnd. apply NoDup_cons in Hnd as [Ha Hnd].
  apply elem_of_cons in Hx as [->|Hx]; apply elem_of_cons in Hy as [->|Hy].
  - done.
  - exfalso. apply Ha. rewrite Heq. by apply list_elem_of_fmap_2.
  - exfalso. apply Ha. rewrite <- Heq. by apply list_elem_of_fmap_2.
  - by apply IH.
Qed.

Lemma timers_of_owner (ts : list timer) t :
  NoDup (t_owner <$> ts) → t ∈ ts →
  filter (λ x, t_owner x = t_owner t) ts = [t].
Proof.
  induction ts as [|a ts IH]; intros Hnd Ht; [by inversion Ht|].
  rewrite fmap_cons in Hnd. apply NoDup_cons in Hnd as [Ha Hnd].
  apply elem_of_cons in Ht as [->|Ht].
  - rewrite filter_cons_True by done. f_equal.
    apply filter_none. intros x Hx Heq. apply Ha. rewrite <- Heq.
    by apply list_elem_of_fmap_2.
  - rewrite filter_cons_False; [by apply IH|].
    intros Heq. apply Ha. rewrite Heq. by apply list_elem_of_fmap_2.
Qed.

Lemma timers_of_at_most_one (ts : list timer) form :
  NoDup (t_owner <$> ts) →
  length (filter (λ x, t_owner x = form) ts) ≤ 1.
Proof.
  intros Hnd.
  destruct (filter (λ x, t_owner x = form) ts) as [|t l] eqn:Hf; [cbn; lia|].
  assert (t ∈ filter (λ x, t_owner x = form) ts) as Ht by (rewrite Hf; left).
  apply list_elem_of_filter in Ht as [<- Ht].
  rewrite (timers_of_owner ts t Hnd Ht) in Hf. injection Hf as <-. cbn. lia.
Qed.

(** ** Timer expiry *)

Lemma expire_spec sel st t :
  wf sel st → t ∈ timers st →
  ∃ e, document st !! t_owner t = Some e
     ∧ truthy_string (dataset_saveUrl e) = true
     ∧ expire t st =
       State (t_due t) (document st) (timeoutId st) (listeners st)
             (next_handle st)
             (filter (λ x, t_owner x ≠ t_owner t) (timers st))
             (requests st ++ [save_request (t_owner t) e (t_due t)])
             (inflight st ++ [length (requests st)]) (unhandled st).
Proof.
  intros Hwf Ht.
  destruct (wf_url _ _ Hwf t Ht) as (e & Hdoc & Hurl).
  exists e. split; [done|]. split; [done|].
  unfold expire, save_callback. cbn. rewrite Hdoc.
  unfold fetch, save_request. cbn.
  rewrite N.max_r by (by apply (wf_due _ _ Hwf)).
  f_equal. apply filter_agree. intros x Hx.
  eapply owner_of_handle; eauto. by apply (wf_owner _ _ Hwf).
Qed.

Lemma expire_wf sel st t :
  wf sel st → t ∈ timers st →
  (∀ t', t' ∈ timers st → (t_due t ≤ t_due t')%N) →
  wf sel (expire t st).
Proof.
  intros Hwf Ht Hmin.
  destruct (expire_spec _ _ _ Hwf Ht) as (e & Hdoc & Hurl & ->).
  destruct Hwf as [Hown Hone Hdue Hh Hinj Hu Hsel Hl Hb Hn Hr Hun].
  constructor; cbn; try done.
  - intros x [_ Hx]%list_elem_of_filter. by apply Hown.
  - eapply sublist_NoDup; [exact Hone|]. apply fmap_sublist, sublist_filter.
  - intros x [_ Hx]%list_elem_of_filter. by apply Hmin.
  - intros x [_ Hx]%list_elem_of_filter. by apply Hu.
  - intros r [Hr'| ->%list_elem_of_singleton]%elem_of_app; [by apply Hr|].
    exists e. cbn. split_done. rewrite (Hown t Ht). eauto.
Qed.

(** ** Letting time pass *)

Lemma fired_none form e limit (ts : list timer) :
  (∀ t, t ∈ ts → (limit < t_due t)%N) →
  fired form e limit (t_due <$> filter (λ t, t_owner t = form) ts) = [].
Proof.
  intros Hlate. unfold fired. rewrite filter_none; [done|].
  intros d [t [-> [_ Ht]%list_elem_of_filter]]%list_elem_of_fmap.
  specialize (Hlate t Ht). lia.
Qed.

Lemma run_timers_spec sel fuel limit st :
  wf sel st → length (timers st) ≤ fuel →
  wf sel (run_timers fuel limit st)
  ∧ advanced limit st (run_timers fuel limit st)
  ∧ (clock st ≤ clock (run_timers fuel limit st))%N
  ∧ (clock (run_timers fuel limit st) ≤ N.max (clock st) limit)%N.
Proof.
  revert st. induction fuel as [|fuel IH]; intros st Hwf Hlen.
  - destruct (timers st) as [|? ?] eqn:Hts; [|cbn in Hlen; lia].
    cbn. split; [done|]. split; [|lia].
    unfold advanced. rewrite Hts. split_done.
    exists []. rewrite app_nil_r. split; [done|].
    intros form. unfold timers_of. rewrite Hts.
    by destruct (document st !! form).
  - cbn. destruct (next_due limit (timers st)) as [t|] eqn:Hnext.
    + destruct (next_due_Some _ _ _ Hnext) as (Ht & Hle & Hmin).
      assert (∀ t', t' ∈ timers st → (t_due t ≤ t_due t')%N) as Hmin'.
      { intros t' Ht'. destruct (decide (t_due t' ≤ limit)%N) as [Hl|Hl];
          [by apply Hmin|lia]. }
      pose proof (expire_wf _ _ _ Hwf Ht Hmin') as Hwf1.
      destruct (expire_spec _ _ _ Hwf Ht) as (e & Hdoc & Hurl & Hst1).
      assert (length (timers (expire t st)) ≤ fuel) as Hlen1.
      { rewrite Hst1. cbn.
        pose proof (length_filter_lt (λ x, t_owner x ≠ t_owner t)
                      (timers st) t Ht) as Hlt.
        cbn in Hlt. lia. }
      destruct (IH _ Hwf1 Hlen1) as (Hwf' & Hadv & Hc1 & Hc2).
      pose proof (wf_due _ _ Hwf t Ht) as Hdue.
      split; [done|]. split.
      2:{ assert (clock (expire t st) = t_due t) as Hck by (by rewrite Hst1).
          rewrite Hck in Hc1, Hc2. lia. }
      destruct Hadv as (Hd & Hc & Hl & Hn & Hu & Hts & new & Hreq & Hnew).
      rewrite Hst1 in Hd at 2. rewrite Hst1 in Hc at 2.
      rewrite Hst1 in Hl at 2. rewrite Hst1 in Hn at 2.
      rewrite Hst1 in Hu at 2. rewrite Hst1 in Hts at 2.
      rewrite Hst1 in Hreq at 2.
      assert (∀ form, filter (λ r, r_origin r = form) new =
                from_option
                  (λ e, fired form e limit
                     (t_due <$> filter (λ x, t_owner x = form)
                        (filter (λ x, t_owner x ≠ t_owner t) (timers st))))
                  [] (document st !! form)) as Hnew'.
      { intros form. rewrite Hnew. unfold timers_of. by rewrite Hst1. }
      clear Hnew. rename Hnew' into Hnew. cbn in Hd, Hc, Hl, Hn, Hu, Hts, Hreq.
      unfold advanced. split_done. split.
      * rewrite Hts, list_filter_filter. apply filter_agree.
        intros x Hx. split; [tauto|]. intros Hlate. split; [done|].
        intros Heq.
        rewrite (same_owner_same_timer _ x t (wf_single _ _ Hwf) Hx Ht Heq)
          in Hlate. lia.
      * exists (save_request (t_owner t) e (t_due t) :: new).
        split; [by rewrite Hreq, <- app_assoc|].
        intros form. rewrite filter_cons, Hnew. unfold timers_of. cbn.
        destruct (decide (t_owner t = form)) as [<-|Hne].
        -- rewrite Hdoc. cbn.
           rewrite (timers_of_owner _ t (wf_single _ _ Hwf) Ht).
           rewrite list_filter_filter, (filter_none _ (timers st)) by tauto.
           unfold fired. cbn. by rewrite decide_True.
        -- rewrite list_filter_filter.
           rewrite (filter_agree _ (λ x, t_owner x = form) (timers st)); [done|].
           intros x Hx. split; [tauto|]. intros <-. split; [done|congruence].
    + pose proof (next_due_None _ _ Hnext) as Hlate.
      split; [done|]. split; [|lia].
      unfold advanced. split_done. split.
      * symmetry. by apply filter_all.
      * exists []. rewrite app_nil_r. split; [done|].
        intros form. destruct (document st !! form); [|done]. cbn.
        symmetry. by apply fired_none.
Qed.

Lemma wait_spec sel dt st :
  wf sel st →
  wf sel (wait dt st)
  ∧ advanced (clock st + dt) st (wait dt st)
  ∧ clock (wait dt st) = (clock st + dt)%N.
Proof.
  intros Hwf. unfold wait.
  destruct (run_timers_spec sel (length (timers st)) (clock st + dt)%N st Hwf)
    as (Hwf' & Hadv & _); [done|].
  set (st' := run_timers _ _ st) in *.
  split; [|split; [exact Hadv|done]].
  destruct Hadv as (_ & _ & _ & _ & _ & Hts & _).
  destruct Hwf' as [Hown Hone Hdue Hh Hinj Hu Hsel Hl Hb Hn Hr Hun].
  constructor; cbn; try done.
  intros t Ht. rewrite Hts in Ht. apply list_elem_of_filter in Ht as [Hlate _].
  lia.
Qed.

(** After [wait], no timer due by the new clock is left: the rounds given
    to [run_timers] are enough. *)
Lemma wait_no_due sel dt st :
  wf sel st → next_due (clock (wait dt st)) (timers (wait dt st)) = None.
Proof.
  intros Hwf. destruct (wait_spec sel dt st Hwf) as (Hwf' & _ & Hck).
  destruct (next_due _ _) as [t|] eqn:Hnext; [|done].
  destruct (next_due_Some _ _ _ Hnext) as (Ht & Hle & _).
  pose proof (wf_due _ _ Hwf' t Ht).
  destruct (wait_spec sel dt st Hwf) as (_ & Hadv & _).
  destruct Hadv as (_ & _ & _ & _ & _ & Hts & _).
  rewrite Hts in Ht. apply list_elem_of_filter in Ht as [Hlate _].
  rewrite Hck in Hle. lia.
Qed.

(** ** The other actions keep the invariant *)

Lemma wf_new_document sel st d :
  (∀ j e, document st !! j = Some e →
     truthy_string (dataset_saveUrl e) = true →
     ∃ e', d !! j = Some e' ∧ dataset_saveUrl e' = dataset_saveUrl e) →
  wf sel st → wf sel (set_document d st).
Proof.
  intros Hattr [Hown Hone Hdue Hh Hinj Hu Hsel Hl Hb Hn Hr Hun].
  constructor; cbn; try done.
  - intros t Ht. destruct (Hu t Ht) as (e & Hdoc & Hurl).
    destruct (Hattr _ _ Hdoc Hurl) as (e' & Hdoc' & Heq).
    exists e'. by rewrite Heq.
  - intros r Hin.
    destruct (Hr r Hin) as (e & Hdoc & Hurl & Hrurl & Hm & Hhd & Hbd).
    destruct (Hattr _ _ Hdoc Hurl) as (e' & Hdoc' & Heq).
    exists e'. by rewrite Heq.
Qed.

Lemma edit_lookup el k v st j e :
  document st !! j = Some e →
  ∃ e', document (edit el k v st) !! j = Some e'
      ∧ dataset_saveUrl e' = dataset_saveUrl e
      ∧ classList e' = classList e
      ∧ controls e' = if decide (j = el)
                      then alter (set_value v) k (controls e)
                      else controls e.
Proof.
  intros Hdoc. unfold edit. cbn.
  destruct (decide (j = el)) as [->|Hne].
  - rewrite list_lookup_alter_eq, Hdoc. cbn. eauto.
  - rewrite list_lookup_alter_ne by done. eauto.
Qed.

Lemma edit_wf sel el k v st : wf sel st → wf sel (edit el k v st).
Proof.
  intros Hwf. apply wf_new_document; [|done].
  intros j e Hdoc _.
  destruct (edit_lookup el k v st j e Hdoc) as (e' & H1 & H2 & _). eauto.
Qed.

Lemma set_controls_lookup el cs st j e :
  document st !! j = Some e →
  ∃ e', document (set_controls el cs st) !! j = Some e'
      ∧ dataset_saveUrl e' = dataset_saveUrl e
      ∧ classList e' = classList e.
Proof.
  intros Hdoc. unfold set_controls. cbn.
  destruct (decide (j = el)) as [->|Hne].
  - rewrite list_lookup_alter_eq, Hdoc. cbn. eauto.
  - rewrite list_lookup_alter_ne by done. eauto.
Qed.

Lemma set_controls_wf sel el cs st : wf sel st → wf sel (set_controls el cs st).
Proof.
  intros Hwf. apply wf_new_document; [|done].
  intros j e Hdoc _.
  destruct (set_controls_lookup el cs st j e Hdoc) as (e' & H1 & H2 & _). eauto.
Qed.

Lemma insert_element_wf sel e st : wf sel st → wf sel (insert_element e st).
Proof.
  intros Hwf. apply wf_new_document; [|done].
  intros j e0 Hdoc _. exists e0. split; [|done]. by apply lookup_app_l_Some.
Qed.

Lemma promise_catch_on_rejected o :
  ∃ s b, promise_catch on_rejected o = Fulfilled s b.
Proof. destruct o; cbn; eauto. Qed.

Lemma settle_spec k o st :
  settle k o st =
  State (clock st) (document st) (timeoutId st) (listeners st) (next_handle st)
        (timers st) (requests st)
        (filter (λ j, j ≠ k) (inflight st)) (unhandled st).
Proof.
  unfold settle.
  destruct (promise_catch_on_rejected o) as (s & b & ->).
  case_bool_decide as Hin; [done|].
  destruct st; cbn in *. f_equal. symmetry. apply filter_all.
  intros j Hj ->. done.
Qed.

Lemma settle_wf sel k o st : wf sel st → wf sel (settle k o st).
Proof.
  intros [Hown Hone Hdue Hh Hinj Hu Hsel Hl Hb Hn Hr Hun].
  rewrite settle_spec. constructor; cbn; done.
Qed.

Lemma dispatch_wf sel el ty st : wf sel st → wf sel (dispatch el ty st).
Proof.
  intros Hwf. rewrite (dispatch_spec sel) by done.
  case_bool_decide; [by apply scheduleSave_wf|done].
Qed.

Lemma step_wf sel a st : wf sel st → wf sel (step a st).
Proof.
  intros Hwf. destruct a; cbn.
  - by apply dispatch_wf.
  - by apply edit_wf.
  - by apply insert_element_wf.
  - by apply wait_spec.
  - by apply settle_wf.
  - by apply set_controls_wf.
Qed.

Lemma run_wf sel acts st : wf sel st → wf sel (run acts st).
Proof.
  revert st. induction acts as [|a acts IH]; intros st Hwf; [done|].
  cbn. apply IH. by apply step_wf.
Qed.

Create HintDb autosave.
#[export] Hint Resolve step_wf run_wf dispatch_wf : autosave.

Lemma run_app acts1 acts2 st :
  run (acts1 ++ acts2) st = run acts2 (run acts1 st).
Proof. unfold run. by rewrite fold_left_app. Qed.

(** ** Loading the script *)

Lemma querySelectorAll_elem i doc el :
  el ∈ querySelectorAll i doc ↔
  i ≤ el ∧ ∃ e, doc !! (el - i) = Some e ∧ matches_autosave e = true.
Proof.
  revert i. induction doc as [|e doc IH]; intros i; cbn.
  - rewrite elem_of_nil. split; [done|]. by intros (_ & e & ? & _).
  - assert (el ∈ querySelectorAll (S i) doc ↔
            S i ≤ el ∧ ∃ e0, (e :: doc) !! (el - i) = Some e0
                             ∧ matches_autosave e0 = true) as Htail.
    { rewrite IH. split; intros (Hle & e0 & Hl & Hm); (split; [lia|]);
        exists e0; (split; [|done]).
      - replace (el - i) with (S (el - S i)) by lia. done.
      - replace (el - i) with (S (el - S i)) in Hl by lia. done. }
    destruct (matches_autosave e) eqn:Hm.
    + rewrite elem_of_cons, Htail. split.
      * intros [->|(Hle & e0 & Hl & Hm0)].
        -- split; [done|]. exists e. by rewrite Nat.sub_diag.
        -- split; [lia|eauto].
      * intros (Hle & e0 & Hl & Hm0).
        destruct (decide (el = i)) as [->|Hne]; [by left|].
        right. split; [lia|eauto].
    + rewrite Htail. split.
      * intros (Hle & e0 & Hl & Hm0). split; [lia|eauto].
      * intros (Hle & e0 & Hl & Hm0).
        destruct (decide (el = i)) as [->|Hne].
        -- rewrite Nat.sub_diag in Hl. cbn in Hl. congruence.
        -- split; [lia|eauto].
Qed.

Lemma querySelectorAll_NoDup i doc : NoDup (querySelectorAll i doc).
Proof.
  revert i. induction doc as [|e doc IH]; intros i; cbn; [constructor|].
  destruct (matches_autosave e); [|done].
  apply NoDup_cons. split; [|done].
  rewrite querySelectorAll_elem. lia.
Qed.

Lemma forEach_spec sel st :
  let st' := fold_left forEach_body sel st in
  clock st' = clock st ∧ document st' = document st
  ∧ next_handle st' = next_handle st ∧ timers st' = timers st
  ∧ requests st' = requests st ∧ inflight st' = inflight st
  ∧ unhandled st' = unhandled st
  ∧ listeners st' = listeners st ++ listeners_for sel
  ∧ ∀ el, timeoutId st' !! el =
          if decide (el ∈ sel) then Some None else timeoutId st !! el.
Proof.
  revert st. induction sel as [|a sel IH]; intros st; cbn.
  - split_done. split; [by rewrite app_nil_r|]. intros el.
    rewrite decide_False; [done|]. apply not_elem_of_nil.
  - destruct (IH (forEach_body st a)) as (H1&H2&H3&H4&H5&H6&H7&H8&H9).
    split_done. split.
    + rewrite H8. cbn. by rewrite <- app_assoc.
    + intros el. rewrite H9. cbn.
      destruct (decide (el ∈ sel)) as [Hin|Hin].
      * rewrite decide_True; [done|by right].
      * destruct (decide (el = a)) as [->|Hne].
        -- rewrite lookup_insert_eq, decide_True; [done|by left].
        -- rewrite lookup_insert_ne by done.
           rewrite decide_False; [done|].
           rewrite elem_of_cons. tauto.
Qed.

Lemma load_wf now doc : wf (autosaveForms doc) (load now doc).
Proof.
  unfold load.
  destruct (forEach_spec (autosaveForms doc)
              (State now doc ∅ [] 1%N [] [] [] []))
    as (H1&H2&H3&H4&H5&H6&H7&H8&H9).
  cbn in *. constructor.
  - rewrite H4. intros t Ht. by inversion Ht.
  - rewrite H4. constructor.
  - rewrite H4. intros t Ht. by inversion Ht.
  - intros el h. rewrite H9. case_decide; [done|]. by rewrite lookup_empty.
  - intros el el' h. rewrite H9. case_decide; [done|]. by rewrite lookup_empty.
  - rewrite H4. intros t Ht. by inversion Ht.
  - apply querySelectorAll_NoDup.
  - by rewrite H8.
  - intros el. rewrite H9. case_decide.
    + split; [eauto|done].
    + rewrite lookup_empty. split; [done|]. by intros [? ?].
  - rewrite H3. lia.
  - rewrite H5. intros r Hr. by inversion Hr.
  - done.
Qed.

Lemma load_no_requests now doc : requests (load now doc) = [].
Proof.
  unfold load.
  by destruct (forEach_spec (autosaveForms doc)
                 (State now doc ∅ [] 1%N [] [] [] []))
    as (_ & _ & _ & _ & -> & _).
Qed.

Lemma reachable_wf now doc acts :
  wf (autosaveForms doc) (run acts (load now doc)).
Proof. apply run_wf, load_wf. Qed.

(** ** What one form sees of each action *)

Lemma scheduleSave_frame sel st g form :
  wf sel st → g ≠ form →
  undisturbed form st (scheduleSave g st)
  ∧ document (scheduleSave g st) = document st.
Proof.
  intros Hwf Hne.
  destruct (document st !! g) as [e|] eqn:Hdoc;
    [|unfold scheduleSave; by rewrite Hdoc].
  destruct (timeoutId st !! g) as [cell|] eqn:Hcell;
    [|by rewrite scheduleSave_unbound].
  destruct (truthy_string (dataset_saveUrl e)) eqn:Hurl;
    [|by erewrite scheduleSave_inert].
  erewrite scheduleSave_spec by eauto.
  unfold undisturbed, timers_of, requests_of. cbn.
  split; [|done]. split; [done|]. split; [|split; [done|]].
  - rewrite filter_app, filter_cons_False, filter_nil, app_nil_r by (cbn; congruence).
    rewrite list_filter_filter. apply filter_agree.
    intros x Hx. split; [tauto|]. intros Heq. split; [done|congruence].
  - by rewrite lookup_insert_ne.
Qed.

Lemma silent_frame sel st form a :
  wf sel st → silent form a = true →
  undisturbed form st (step a st)
  ∧ ∀ e, document st !! form = Some e →
      ∃ e', document (step a st) !! form = Some e' ∧ same_attributes e e'.
Proof.
  intros Hwf Hs. destruct a as [el ty|el k v|e0|dt|k o|el cs]; cbn in *.
  - apply negb_true_iff, Nat.eqb_neq in Hs.
    rewrite (dispatch_spec sel) by done. case_bool_decide.
    + destruct (scheduleSave_frame sel st el form Hwf Hs) as [Hu Hd].
      split; [done|]. rewrite Hd. intros e He. exists e. by split.
    + split; [done|]. intros e He. exists e. by split.
  - split; [done|]. intros e He.
    destruct (edit_lookup el k v st form e He) as (e' & H1 & H2 & H3 & _).
    exists e'. by split.
  - split; [done|]. intros e He. exists e. split; [|done].
    by apply lookup_app_l_Some.
  - done.
  - rewrite settle_spec. split; [done|]. intros e He. exists e. by split.
  - split; [done|]. intros e He.
    destruct (set_controls_lookup el cs st form e He) as (e' & H1 & H2 & H3).
    exists e'. by split.
Qed.

(** Events and edits addressed to other elements leave the element of
    [form] itself untouched too. *)
Lemma on_other_frame sel st form a :
  wf sel st → on_other form a = true →
  undisturbed form st (step a st)
  ∧ document (step a st) !! form = document st !! form
  ∧ length (document (step a st)) = length (document st).
Proof.
  intros Hwf Ho.
  assert (silent form a = true) as Hs by (by destruct a).
  destruct (silent_frame sel st form a Hwf Hs) as [Hu _].
  split; [done|]. destruct a as [el ty|el k v|e0|dt|k o|el cs]; cbn in *; try done.
  - apply negb_true_iff, Nat.eqb_neq in Ho.
    rewrite (dispatch_spec sel) by done. case_bool_decide; [|done].
    destruct (scheduleSave_frame sel st el form Hwf Ho) as [_ ->]. done.
  - apply negb_true_iff, Nat.eqb_neq in Ho.
    rewrite list_lookup_alter_ne by done. by rewrite length_alter.
  - apply negb_true_iff, Nat.eqb_neq in Ho.
    rewrite list_lookup_alter_ne by done. by rewrite length_alter.
Qed.

(** A qualifying event on a bound form with an endpoint. *)
Lemma dispatch_self sel st form e ty :
  wf sel st → form ∈ sel → qualifying ty →
  document st !! form = Some e →
  truthy_string (dataset_saveUrl e) = true →
  dispatch form ty st =
  State (clock st) (document st)
        (<[form := Some (next_handle st)]> (timeoutId st)) (listeners st)
        (next_handle st + 1)%N
        (filter (λ t, t_owner t ≠ form) (timers st)
           ++ [Timer (next_handle st) (clock st + DELAY)%N form])
        (requests st) (inflight st) (unhandled st).
Proof.
  intros Hwf Hsel Hq Hdoc Hurl.
  rewrite (dispatch_spec sel) by done.
  rewrite bool_decide_eq_true_2 by done.
  eapply scheduleSave_spec; eauto. by apply (wf_bound _ _ Hwf).
Qed.

Lemma dispatch_self_timers sel st form e ty :
  wf sel st → form ∈ sel → qualifying ty →
  document st !! form = Some e →
  truthy_string (dataset_saveUrl e) = true →
  timers_of form (dispatch form ty st) =
    [Timer (next_handle st) (clock st + DELAY)%N form]
  ∧ requests (dispatch form ty st) = requests st
  ∧ document (dispatch form ty st) = document st
  ∧ clock (dispatch form ty st) = clock st.
Proof.
  intros Hwf Hsel Hq Hdoc Hurl.
  erewrite dispatch_self by eauto. unfold timers_of. cbn.
  repeat split.
  rewrite filter_app, list_filter_filter, filter_none by tauto.
  by rewrite filter_cons_True.
Qed.

(** The passage of time, as one form sees it. *)
Lemma wait_form sel st form e dt :
  wf sel st → document st !! form = Some e →
  timers_of form (wait dt st) =
    filter (λ t, (clock st + dt < t_due t)%N) (timers_of form st)
  ∧ requests_of form (wait dt st) =
      requests_of form st
      ++ fired form e (clock st + dt) (t_due <$> timers_of form st)
  ∧ document (wait dt st) = document st
  ∧ timeoutId (wait dt st) = timeoutId st
  ∧ clock (wait dt st) = (clock st + dt)%N.
Proof.
  intros Hwf Hdoc.
  destruct (wait_spec sel dt st Hwf) as (_ & Hadv & Hck).
  destruct Hadv as (Hd & Hc & _ & _ & _ & Hts & new & Hreq & Hnew).
  unfold timers_of, requests_of. rewrite Hts, Hreq, filter_app, Hnew, Hdoc.
  repeat split; try done.
  rewrite !list_filter_filter. apply filter_agree. tauto.
Qed.

Lemma wait_form_early sel st form e dt t :
  wf sel st → document st !! form = Some e →
  timers_of form st = [t] → (clock st + dt < t_due t)%N →
  timers_of form (wait dt st) = [t]
  ∧ requests_of form (wait dt st) = requests_of form st.
Proof.
  intros Hwf Hdoc Ht Hlt.
  destruct (wait_form sel st form e dt Hwf Hdoc) as (-> & -> & _).
  rewrite Ht. unfold fired. cbn.
  rewrite decide_True by done. rewrite decide_False by lia.
  by rewrite app_nil_r.
Qed.

Lemma wait_form_late sel st form e dt t :
  wf sel st → document st !! form = Some e →
  timers_of form st = [t] → (t_due t ≤ clock st + dt)%N →
  timers_of form (wait dt st) = []
  ∧ requests_of form (wait dt st) =
      requests_of form st ++ [save_request form e (t_due t)].
Proof.
  intros Hwf Hdoc Ht Hle.
  destruct (wait_form sel st form e dt Hwf Hdoc) as (-> & -> & _).
  rewrite Ht. unfold fired. cbn.
  rewrite decide_False by lia. by rewrite decide_True.
Qed.

(** ** Attributes never change *)

Lemma same_attributes_refl e : same_attributes e e.
Proof. by split. Qed.

Lemma same_attributes_trans e1 e2 e3 :
  same_attributes e1 e2 → same_attributes e2 e3 → same_attributes e1 e3.
Proof. intros [? ?] [? ?]. split; congruence. Qed.

Lemma step_attributes sel a st j e :
  wf sel st → document st !! j = Some e →
  ∃ e', document (step a st) !! j = Some e' ∧ same_attributes e e'.
Proof.
  intros Hwf Hdoc. destruct a as [el ty|el k v|e0|dt|k o|el cs]; cbn [step].
  - exists e. split; [|apply same_attributes_refl].
    rewrite (dispatch_spec sel) by done. case_bool_decide; [|done].
    destruct (document st !! el) as [e1|] eqn:Hd1;
      [|unfold scheduleSave; by rewrite Hd1].
    destruct (timeoutId st !! el) as [cell|] eqn:Hcell;
      [|by rewrite scheduleSave_unbound].
    destruct (truthy_string (dataset_saveUrl e1)) eqn:Hurl;
      [|by erewrite scheduleSave_inert].
    erewrite scheduleSave_spec by eauto. done.
  - destruct (edit_lookup el k v st j e Hdoc) as (e' & H1 & H2 & H3 & _).
    exists e'. by split.
  - exists e. split; [by apply lookup_app_l_Some|apply same_attributes_refl].
  - exists e. split; [|apply same_attributes_refl].
    destruct (wait_spec sel dt st Hwf) as (_ & (-> & _) & _). done.
  - exists e. split; [|apply same_attributes_refl]. by rewrite settle_spec.
  - destruct (set_controls_lookup el cs st j e Hdoc) as (e' & H1 & H2 & H3).
    exists e'. by split.
Qed.

Lemma run_attributes sel acts st j e :
  wf sel st → document st !! j = Some e →
  ∃ e', document (run acts st) !! j = Some e' ∧ same_attributes e e'.
Proof.
  revert st e. induction acts as [|a acts IH]; intros st e Hwf Hdoc.
  - exists e. split; [done|apply same_attributes_refl].
  - destruct (step_attributes sel a st j e Hwf Hdoc) as (e1 & Hd1 & Hs1).
    destruct (IH (step a st) e1 (step_wf _ _ _ Hwf) Hd1) as (e2 & Hd2 & Hs2).
    exists e2. split; [done|]. by eapply same_attributes_trans.
Qed.

Lemma load_document now doc : document (load now doc) = doc.
Proof.
  unfold load.
  by destruct (forEach_spec (autosaveForms doc)
                 (State now doc ∅ [] 1%N [] [] [] [])) as (_ & -> & _).
Qed.

Lemma load_bound doc form e0 :
  doc !! form = Some e0 → matches_autosave e0 = true →
  form ∈ autosaveForms doc.
Proof.
  intros Hdoc Hm. apply querySelectorAll_elem. split; [lia|].
  exists e0. by rewrite Nat.sub_0_r.
Qed.

(** A marked form of the loaded document that declares an endpoint is, in
    every later state, bound and still declares it. *)
Lemma autosaved_form now doc acts form e0 :
  doc !! form = Some e0 → matches_autosave e0 = true →
  truthy_string (dataset_saveUrl e0) = true →
  form ∈ autosaveForms doc
  ∧ ∃ e, document (run acts (load now doc)) !! form = Some e
       ∧ same_attributes e0 e
       ∧ truthy_string (dataset_saveUrl e) = true.
Proof.
  intros Hdoc Hm Hurl. split; [by eapply load_bound|].
  destruct (run_attributes _ acts (load now doc) form e0 (load_wf now doc))
    as (e & Hd & Hs); [by rewrite load_document|].
  exists e. split; [done|]. split; [done|].
  destruct Hs as [_ ->]. done.
Qed.

(** ** Quiet stretches and bursts *)

Lemma run_cons a acts st : run (a :: acts) st = run acts (step a st).
Proof. done. Qed.

Lemma elapsed_wait dt acts : elapsed (Wait dt :: acts) = (dt + elapsed acts)%N.
Proof. done. Qed.

Lemma elapsed_silent form a acts :
  silent form a = true → elapsed (a :: acts) = elapsed acts.
Proof. by destruct a. Qed.

Lemma quiet_run sel form mid st t e :
  wf sel st → forallb (quiet form) mid = true →
  document st !! form = Some e →
  timers_of form st = [t] → (clock st + elapsed mid < t_due t)%N →
  timers_of form (run mid st) = [t]
  ∧ requests_of form (run mid st) = requests_of form st
  ∧ clock (run mid st) = (clock st + elapsed mid)%N
  ∧ ∃ e', document (run mid st) !! form = Some e' ∧ same_attributes e e'.
Proof.
  revert st e. induction mid as [|a mid IH]; intros st e Hwf Hq Hdoc Ht Hlt.
  - cbn in *. rewrite N.add_0_r. split_done.
    exists e. split; [done|apply same_attributes_refl].
  - cbn [forallb] in Hq. apply andb_true_iff in Hq as [Ha Hq].
    rewrite run_cons.
    pose proof (step_wf sel a st Hwf) as Hwf1.
    destruct (step_attributes sel a st form e Hwf Hdoc) as (e1 & Hd1 & Hs1).
    assert (timers_of form (step a st) = [t]
            ∧ requests_of form (step a st) = requests_of form st
            ∧ (clock (step a st) + elapsed mid = clock st + elapsed (a :: mid))%N)
      as (Ht1 & Hr1 & Hc1).
    { destruct (silent form a) eqn:Hs.
      - destruct (silent_frame sel st form a Hwf Hs) as [(Hc & Hts & Hrs & _) _].
        rewrite Hts, Hrs, Hc. split_done.
        by rewrite (elapsed_silent form).
      - destruct a as [el ty|el k v|e0|dt|k o|el cs]; cbn in Ha, Hs; try congruence.
        rewrite elapsed_wait in Hlt |- *. cbn [step].
        destruct (wait_form_early sel st form e dt t Hwf Hdoc Ht) as [-> ->];
          [lia|].
        split_done.
        destruct (wait_spec sel dt st Hwf) as (_ & _ & ->). lia. }
    destruct (IH (step a st) e1 Hwf1 Hq Hd1 Ht1) as (H1 & H2 & H3 & e2 & H4 & H5);
      [lia|].
    split; [done|]. split; [congruence|]. split; [lia|].
    exists e2. split; [done|]. by eapply same_attributes_trans.
Qed.

Lemma burst_run sel form rest st e t :
  wf sel st → form ∈ sel →
  document st !! form = Some e →
  truthy_string (dataset_saveUrl e) = true →
  forallb in_burst rest = true →
  timers_of form st = [t] → t_due t = (clock st + DELAY)%N →
  let st' := run (burst_tail form rest) st in
  wf sel st'
  ∧ document st' = document st
  ∧ clock st' = (clock st + gaps rest)%N
  ∧ requests_of form st' = requests_of form st
  ∧ ∃ t', timers_of form st' = [t'] ∧ t_due t' = (clock st' + DELAY)%N.
Proof.
  revert st t. induction rest as [|[gap ty] rest IH];
    intros st t Hwf Hsel Hdoc Hurl Hb Ht Hdue; cbn zeta.
  - cbn. rewrite N.add_0_r. split_done. eauto.
  - cbn [forallb] in Hb. apply andb_true_iff in Hb as [Hp Hb].
    unfold in_burst in Hp. cbn in Hp.
    apply andb_true_iff in Hp as [Hgap%N.ltb_lt Hty%bool_decide_eq_true].
    change (burst_tail form ((gap, ty) :: rest))
      with ([Wait gap; Dispatch form ty] ++ burst_tail form rest).
    rewrite run_app. cbn [run fold_left step].
    destruct (wait_spec sel gap st Hwf) as (Hwf1 & _ & Hck1).
    destruct (wait_form sel st form e gap Hwf Hdoc) as (_ & _ & Hd1 & _ & _).
    destruct (wait_form_early sel st form e gap t Hwf Hdoc Ht) as [_ Hr1];
      [lia|].
    assert (document (wait gap st) !! form = Some e) as Hdoc1
      by (by rewrite Hd1).
    destruct (dispatch_self_timers sel (wait gap st) form e ty Hwf1 Hsel Hty
                Hdoc1 Hurl) as (Ht2 & Hr2 & Hd2 & Hc2).
    set (st2 := dispatch form ty (wait gap st)) in *.
    assert (wf sel st2) as Hwf2 by (by apply dispatch_wf).
    assert (document st2 !! form = Some e) as Hdoc2 by (by rewrite Hd2).
    destruct (IH st2 _ Hwf2 Hsel Hdoc2 Hurl Hb Ht2) as (H1 & H2 & H3 & H4 & H5).
    { cbn [t_due]. by rewrite Hc2. }
    split; [done|]. split; [congruence|]. split.
    { rewrite H3, Hc2, Hck1.
      change (gaps ((gap, ty) :: rest)) with (gap + gaps rest)%N. lia. }
    split; [|done].
    rewrite H4. unfold requests_of. rewrite Hr2. exact Hr1.
Qed.

(** ** Debounce *)

(** C1.  On a marked form of the loaded document that declares an endpoint,
    a burst of events (a first "input" or "change" event, then any number of
    further ones, each less than 800 ms after the previous one) followed by
    at least 800 ms of waiting adds exactly one call to the form's network
    log, stamped 800 ms after the last event of the burst; while the burst
    lasts no call is added, and no timer of the form is left afterwards. *)
Theorem debounce_burst now doc pre form e0 ty rest dt :
  doc !! form = Some e0 →
  matches_autosave e0 = true →
  truthy_string (dataset_saveUrl e0) = true →
  qualifying ty →
  forallb in_burst rest = true →
  (DELAY ≤ dt)%N →
  let st := run pre (load now doc) in
  let burst := Dispatch form ty :: burst_tail form rest in
  ∃ e, document st !! form = Some e
     ∧ requests_of form (run burst st) = requests_of form st
     ∧ requests_of form (run (burst ++ [Wait dt]) st) =
         requests_of form st
         ++ [save_request form e (clock st + gaps rest + DELAY)]
     ∧ timers_of form (run (burst ++ [Wait dt]) st) = [].
Proof.
  intros Hdoc Hm Hurl Hq Hb Hdt st burst.
  destruct (autosaved_form now doc pre form e0 Hdoc Hm Hurl)
    as (Hsel & e & Hd & Hs & Hu).
  pose proof (reachable_wf now doc pre) as Hwf. fold st in Hwf, Hd.
  exists e. split; [done|].
  rewrite run_app. subst burst. rewrite run_cons. cbn [step].
  destruct (dispatch_self_timers _ st form e ty Hwf Hsel Hq Hd Hu)
    as (Ht1 & Hr1 & Hd1 & Hc1).
  pose proof (dispatch_wf _ form ty st Hwf) as Hwf1.
  set (st1 := dispatch form ty st) in *.
  assert (document st1 !! form = Some e) as Hdoc1 by (by rewrite Hd1).
  destruct (burst_run _ form rest st1 e _ Hwf1 Hsel Hdoc1 Hu Hb Ht1)
    as (Hwf2 & Hd2 & Hc2 & Hr2 & t' & Ht2 & Hdue2).
  { cbn [t_due]. by rewrite Hc1. }
  set (st2 := run (burst_tail form rest) st1) in *.
  assert (requests_of form st2 = requests_of form st) as Hr.
  { rewrite Hr2. unfold requests_of. by rewrite Hr1. }
  split; [done|].
  assert (document st2 !! form = Some e) as Hdoc2 by (by rewrite Hd2).
  change (run [Wait dt] st2) with (wait dt st2).
  destruct (wait_form_late _ st2 form e dt t' Hwf2 Hdoc2 Ht2) as [Ht3 Hr3];
    [lia|].
  split; [|done].
  rewrite Hr3, Hr, Hdue2, Hc2, Hc1. done.
Qed.

Lemma debounce_burst_witness :
  ∃ e, document (load 0 [shift_form]) !! 0 = Some e
     ∧ requests_of 0
         (run [Dispatch 0 "input"; Wait 300; Dispatch 0 "change"]
            (load 0 [shift_form])) = []
     ∧ requests_of 0
         (run [Dispatch 0 "input"; Wait 300; Dispatch 0 "change"; Wait 800]
            (load 0 [shift_form])) = [save_request 0 e 1100]
     ∧ timers_of 0
         (run [Dispatch 0 "input"; Wait 300; Dispatch 0 "change"; Wait 800]
            (load 0 [shift_form])) = [].
Proof.
  apply (debounce_burst 0 [shift_form] [] 0 shift_form "input"
           [(300%N, "change")] 800).
  - reflexivity.
  - reflexivity.
  - reflexivity.
  - left. reflexivity.
  - reflexivity.
  - unfold DELAY. lia.
Defined.

(** *** The entry list *)

Lemma control_entries_successful c :
  control_entries c =
  if decide (successful c) then [(c_name c, c_value c)] else [].
Proof.
  destruct c as [name value kind disabled checked].
  unfold control_entries, successful. cbn.
  destruct (decide _) as [(Hd & Hk & Hc & Hn)|Hno].
  - subst disabled. apply String.eqb_neq in Hn.
    destruct kind; [by rewrite Hn| |done].
    rewrite Hc by done. cbn. by rewrite Hn.
  - destruct disabled; [done|].
    destruct (String.eqb_spec name EmptyString) as [Heq|Hne].
    + destruct kind; [done| |done]. by destruct checked.
    + destruct kind; [| |done].
      * exfalso. apply Hno. repeat split; done.
      * destruct checked; [|done].
        exfalso. apply Hno. repeat split; done.
Qed.

Lemma FormData_submitted e : FormData e = submitted_entries (controls e).
Proof.
  unfold FormData, submitted_entries.
  induction (controls e) as [|c cs IH]; [done|].
  cbn [mbind list_bind]. fold (mbind (M:=list) control_entries cs).
  rewrite filter_cons, control_entries_successful.
  change (mbind control_entries cs) with (cs ≫= control_entries).
  rewrite IH. by destruct (decide (successful c)).
Qed.

Lemma submitted_entries_elem cs n v :
  (n, v) ∈ submitted_entries cs ↔
  ∃ c, c ∈ cs
     ∧ c_disabled c = false
     ∧ c_kind c ≠ Button
     ∧ (c_kind c = Checkable → c_checked c = true)
     ∧ c_name c = n ∧ n ≠ EmptyString ∧ c_value c = v.
Proof.
  unfold submitted_entries. rewrite list_elem_of_fmap. split.
  - intros (c & [= -> ->] & [(Hd & Hk & Hc & Hn) Hin]%list_elem_of_filter).
    exists c. done.
  - intros (c & Hin & Hd & Hk & Hc & <- & Hn & <-).
    exists c. split; [done|]. apply list_elem_of_filter. done.
Qed.

Lemma save_request_body form e time :
  save_request form e time =
  Request time form (ToString (dataset_saveUrl e)) "POST"
          [("X-Requested-With", "fetch")] (submitted_entries (controls e))
          multipart_form_data.
Proof. unfold save_request. by rewrite FormData_submitted. Qed.

(** C2.  The body of a call is the form's entry list as it is when the
    timer expires.  For every pending timer, expiry logs a call whose body
    holds, in order, name and value of the controls the owner then has that
    are enabled, named, no buttons and, for checkboxes and radio buttons,
    checked.  And when, after the triggering event, a stretch without events
    on the form (edits of its controls, controls added, removed, checked or
    disabled, other actions, less than 800 ms in all) precedes the expiry,
    the one call sent carries the entries of the controls as they are at the
    end of that stretch, not as they were when the timer was scheduled: a
    pair is in the body exactly when such a control with that name and that
    value is then in the form. *)
Theorem payload_is_snapshot_at_firing now doc pre form e0 ty mid dt :
  doc !! form = Some e0 →
  matches_autosave e0 = true →
  truthy_string (dataset_saveUrl e0) = true →
  qualifying ty →
  forallb (quiet form) mid = true →
  (elapsed mid < DELAY)%N →
  (DELAY ≤ elapsed mid + dt)%N →
  let st := run pre (load now doc) in
  let st1 := run (Dispatch form ty :: mid) st in
  (∀ t, t ∈ timers st1 →
     ∃ e, document st1 !! t_owner t = Some e
        ∧ requests (expire t st1) =
            requests st1
            ++ [Request (t_due t) (t_owner t) (ToString (dataset_saveUrl e))
                  "POST" [("X-Requested-With", "fetch")]
                  (submitted_entries (controls e)) multipart_form_data])
  ∧ ∃ e1, document st1 !! form = Some e1
      ∧ requests_of form (wait dt st1) =
          requests_of form st
          ++ [Request (clock st + DELAY) form (ToString (dataset_saveUrl e0))
                "POST" [("X-Requested-With", "fetch")]
                (submitted_entries (controls e1)) multipart_form_data]
      ∧ ∀ n v,
          (n, v) ∈ submitted_entries (controls e1) ↔
          ∃ c, c ∈ controls e1
             ∧ c_disabled c = false
             ∧ c_kind c ≠ Button
             ∧ (c_kind c = Checkable → c_checked c = true)
             ∧ c_name c = n ∧ n ≠ EmptyString ∧ c_value c = v.
Proof.
  intros Hdoc Hm Hurl Hq Hmid Hlt Hge st st1.
  destruct (autosaved_form now doc pre form e0 Hdoc Hm Hurl)
    as (Hsel & e & Hd & Hs & Hu).
  pose proof (reachable_wf now doc pre) as Hwf. fold st in Hwf, Hd.
  assert (wf (autosaveForms doc) st1) as Hwf1 by (by apply run_wf).
  split.
  { intros t Ht. destruct (expire_spec _ _ _ Hwf1 Ht) as (e' & Hd' & _ & ->).
    exists e'. split; [done|]. cbn [requests]. by rewrite save_request_body. }
  subst st1. rewrite run_cons in *. cbn [step] in *.
  destruct (dispatch_self_timers _ st form e ty Hwf Hsel Hq Hd Hu)
    as (Ht1 & Hr1 & Hd1 & Hc1).
  pose proof (dispatch_wf _ form ty st Hwf) as Hwfd.
  set (sd := dispatch form ty st) in *.
  assert (document sd !! form = Some e) as Hdocd by (by rewrite Hd1).
  destruct (quiet_run _ form mid sd _ e Hwfd Hmid Hdocd Ht1)
    as (Ht2 & Hr2 & Hc2 & e1 & Hd2 & Hs2).
  { cbn [t_due]. rewrite Hc1. lia. }
  exists e1. split; [done|]. split; [|apply submitted_entries_elem].
  destruct (wait_form_late _ _ form e1 dt _ Hwf1 Hd2 Ht2) as [_ ->].
  { cbn [t_due]. rewrite Hc2, Hc1. lia. }
  rewrite Hr2. unfold requests_of at 1. rewrite Hr1. fold (requests_of form st).
  rewrite save_request_body. cbn [t_due].
  destruct Hs as [_ Hs], Hs2 as [_ Hs2]. by rewrite Hs2, Hs.
Qed.

Lemma payload_is_snapshot_at_firing_witness :
  ∃ e1,
    document
      (run [Dispatch 0 "input"; Wait 200; Edit 0 0 "ab"; Wait 200;
            Edit 0 0 "abc"] (load 0 [notes_form])) !! 0 = Some e1
    ∧ requests_of 0
        (wait 500
           (run [Dispatch 0 "input"; Wait 200; Edit 0 0 "ab"; Wait 200;
                 Edit 0 0 "abc"] (load 0 [notes_form]))) =
      requests_of 0 (load 0 [notes_form])
      ++ [Request (0 + DELAY) 0 "/save/42" "POST"
            [("X-Requested-With", "fetch")]
            (submitted_entries (controls e1)) multipart_form_data]
    ∧ ∀ n v,
        (n, v) ∈ submitted_entries (controls e1) ↔
        ∃ c, c ∈ controls e1
           ∧ c_disabled c = false
           ∧ c_kind c ≠ Button
           ∧ (c_kind c = Checkable → c_checked c = true)
           ∧ c_name c = n ∧ n ≠ EmptyString ∧ c_value c = v.
Proof.
  apply (payload_is_snapshot_at_firing 0 [notes_form] [] 0 notes_form "input"
           [Wait 200; Edit 0 0 "ab"; Wait 200; Edit 0 0 "abc"] 500).
  - reflexivity.
  - reflexivity.
  - reflexivity.
  - left. reflexivity.
  - reflexivity.
  - vm_compute. reflexivity.
  - vm_compute. discriminate.
Defined.

Example survey_entries :
  FormData survey_form = [("title", "t")].
Proof. reflexivity. Qed.

(** The checkbox is checked and the text changed after the event, without
    a further event: the call carries both changes. *)
Example survey_saved_as_at_firing :
  requests
    (run [Dispatch 0 "change"; Wait 400; SetControls 0 survey_controls_later;
          Wait 400] (load 0 [survey_form]))
  = [ Request 800 0 "/save/5" "POST" [("X-Requested-With", "fetch")]
              [("title", "tt"); ("done", "on")] multipart_form_data ].
Proof. vm_compute. reflexivity. Qed.

Example abc_only :
  r_body <$> requests
    (run [Dispatch 0 "input"; Wait 200; Edit 0 0 "ab"; Wait 200;
          Edit 0 0 "abc"; Wait 500] (load 0 [notes_form]))
  = [[("notes", "abc")]].
Proof. vm_compute. reflexivity. Qed.

(** ** Forms without a usable endpoint *)

Lemma falsy_inert sel st form e :
  wf sel st → document st !! form = Some e →
  truthy_string (dataset_saveUrl e) = false →
  scheduleSave form st = st
  ∧ (∀ ty, dispatch form ty st = st)
  ∧ timers_of form st = []
  ∧ requests_of form st = [].
Proof.
  intros Hwf Hdoc Hurl.
  assert (scheduleSave form st = st) as Hs by (by eapply scheduleSave_inert).
  split; [done|]. split; [|split].
  - intros ty. rewrite (dispatch_spec sel) by done. by case_bool_decide.
  - apply filter_none. intros t Ht Heq.
    destruct (wf_url _ _ Hwf t Ht) as (e' & Hd' & Hu').
    rewrite Heq, Hdoc in Hd'. congruence.
  - apply filter_none. intros r Hr Heq.
    destruct (wf_requests _ _ Hwf r Hr) as (e' & Hd' & Hu' & _).
    rewrite Heq, Hdoc in Hd'. congruence.
Qed.

(** C3.  In every state the page can reach, a form without a
    [data-save-url] attribute is inert: its handler returns the state
    unchanged, so does the dispatch of any event to it, it owns no timer and
    no call in the network log comes from it, whatever happened before. *)
Theorem no_endpoint_no_effect now doc acts form e :
  let st := run acts (load now doc) in
  document st !! form = Some e →
  dataset_saveUrl e = None →
  scheduleSave form st = st
  ∧ (∀ ty, step (Dispatch form ty) st = st)
  ∧ timers_of form st = []
  ∧ requests_of form st = [].
Proof.
  intros st Hdoc Hnone.
  apply (falsy_inert _ st form e (reachable_wf now doc acts) Hdoc).
  by rewrite Hnone.
Qed.

Lemma no_endpoint_no_effect_witness :
  let st := run [Edit 0 0 "x"; Dispatch 0 "input"; Wait 300;
                 Dispatch 0 "change"; Wait 5000] (load 0 [plain_form]) in
  scheduleSave 0 st = st
  ∧ (∀ ty, step (Dispatch 0 ty) st = st)
  ∧ timers_of 0 st = []
  ∧ requests_of 0 st = [].
Proof.
  apply (no_endpoint_no_effect 0 [plain_form]
           [Edit 0 0 "x"; Dispatch 0 "input"; Wait 300;
            Dispatch 0 "change"; Wait 5000] 0
           (Element ["autosave-form"] None [text_field "notes" "x"])).
  - reflexivity.
  - reflexivity.
Defined.

Lemma without_endpoint_wf sel st form e :
  wf sel st → document st !! form = Some e →
  truthy_string (dataset_saveUrl e) = false →
  wf sel (without_endpoint form st).
Proof.
  intros Hwf Hdoc Hurl. apply wf_new_document; [|done].
  intros j e1 Hd1 Hu1. exists e1. split; [|done].
  rewrite list_lookup_alter_ne; [done|]. intros ->. congruence.
Qed.

Lemma scheduleSave_without st form g e :
  document st !! form = Some e →
  truthy_string (dataset_saveUrl e) = false →
  scheduleSave g (without_endpoint form st)
  = without_endpoint form (scheduleSave g st).
Proof.
  intros Hdoc Hurl. unfold scheduleSave, without_endpoint. cbn.
  destruct (decide (g = form)) as [->|Hne].
  - rewrite list_lookup_alter_eq, Hdoc. cbn. rewrite Hurl. cbn.
    by destruct (timeoutId st !! form).
  - rewrite list_lookup_alter_ne by done.
    destruct (document st !! g) as [e1|]; [|done].
    destruct (timeoutId st !! g) as [[h|]|]; [| |done];
      destruct (truthy_string (dataset_saveUrl e1)); cbn; try done.
    by destruct (h =? 0)%N.
Qed.

Lemma expire_without st form t :
  t_owner t ≠ form →
  expire t (without_endpoint form st) = without_endpoint form (expire t st).
Proof.
  intros Hne. unfold expire, save_callback, without_endpoint. cbn.
  rewrite list_lookup_alter_ne by done.
  by destruct (document st !! t_owner t).
Qed.

Lemma run_timers_without sel fuel limit st form e :
  wf sel st → document st !! form = Some e →
  truthy_string (dataset_saveUrl e) = false →
  run_timers fuel limit (without_endpoint form st)
  = without_endpoint form (run_timers fuel limit st).
Proof.
  revert st. induction fuel as [|fuel IH]; intros st Hwf Hdoc Hurl; [done|].
  cbn. destruct (next_due limit (timers st)) as [t|] eqn:Hnext; [|done].
  destruct (next_due_earliest _ _ _ Hnext) as [Ht Hmin].
  destruct (expire_spec _ _ _ Hwf Ht) as (e1 & Hd1 & Hu1 & Hst1).
  rewrite expire_without by (intros Heq; rewrite Heq in Hd1; congruence).
  apply IH; [by apply expire_wf| |done].
  by rewrite Hst1.
Qed.

Lemma step_without sel a st form e :
  wf sel st → document st !! form = Some e →
  truthy_string (dataset_saveUrl e) = false →
  step a (without_endpoint form st) = without_endpoint form (step a st).
Proof.
  intros Hwf Hdoc Hurl.
  pose proof (without_endpoint_wf _ _ _ _ Hwf Hdoc Hurl) as Hwf'.
  destruct a as [el ty|el k v|e0|dt|k o|el cs]; cbn [step].
  - rewrite !(dispatch_spec sel) by done.
    case_bool_decide; [by eapply scheduleSave_without|done].
  - unfold edit, without_endpoint, set_document. cbn. f_equal.
    destruct (decide (el = form)) as [->|Hne].
    + rewrite !list_alter_alter_eq. by apply list_alter_ext.
    + by apply list_alter_alter_ne.
  - unfold insert_element, without_endpoint, set_document. cbn. f_equal.
    symmetry. apply alter_app_l. by eapply lookup_lt_Some.
  - unfold wait.
    change (timers (without_endpoint form st)) with (timers st).
    change (clock (without_endpoint form st)) with (clock st).
    by erewrite run_timers_without.
  - by rewrite !settle_spec.
  - unfold set_controls, without_endpoint, set_document. cbn. f_equal.
    destruct (decide (el = form)) as [->|Hne].
    + rewrite !list_alter_alter_eq. by apply list_alter_ext.
    + by apply list_alter_alter_ne.
Qed.

Lemma run_without sel acts st form e :
  wf sel st → document st !! form = Some e →
  truthy_string (dataset_saveUrl e) = false →
  run acts (without_endpoint form st) = without_endpoint form (run acts st).
Proof.
  revert st e. induction acts as [|a acts IH]; intros st e Hwf Hdoc Hurl;
    [done|].
  rewrite !run_cons. erewrite step_without by eauto.
  destruct (step_attributes sel a st form e Hwf Hdoc) as (e1 & Hd1 & _ & Hs1).
  apply (IH _ e1); [by apply step_wf|done|by rewrite Hs1].
Qed.

Lemma querySelectorAll_without i form doc :
  querySelectorAll i (alter drop_endpoint form doc) = querySelectorAll i doc.
Proof.
  revert i form. induction doc as [|e doc IH]; intros i [|form]; cbn;
    [done|done|done|].
  by rewrite IH.
Qed.

Lemma load_without now doc form :
  load now (alter drop_endpoint form doc)
  = without_endpoint form (load now doc).
Proof.
  unfold load, autosaveForms. rewrite querySelectorAll_without.
  change (State now (alter drop_endpoint form doc) ∅ [] 1%N [] [] [] [])
    with (without_endpoint form (State now doc ∅ [] 1%N [] [] [] [])).
  generalize (State now doc ∅ [] 1%N [] [] [] []).
  induction (querySelectorAll 0 doc) as [|a sel IH]; intros st; [done|].
  cbn [fold_left]. rewrite <- IH. done.
Qed.

(** C8.  The endpoint test is a truthiness test: an empty [data-save-url]
    is as falsy as a missing one.  A form carrying it is inert (handler and
    dispatch change nothing, it owns no timer, no call comes from it), and
    the page behaves as if the attribute were absent: running any actions on
    the document with the attribute removed gives the same window, up to
    that attribute. *)
Theorem empty_endpoint_no_effect now doc acts form e0 :
  doc !! form = Some e0 →
  dataset_saveUrl e0 = Some EmptyString →
  let st := run acts (load now doc) in
  truthy_string (dataset_saveUrl e0) = truthy_string None
  ∧ scheduleSave form st = st
  ∧ (∀ ty, step (Dispatch form ty) st = st)
  ∧ timers_of form st = []
  ∧ requests_of form st = []
  ∧ run acts (load now (alter drop_endpoint form doc))
    = without_endpoint form st.
Proof.
  intros Hdoc Hempty st.
  assert (truthy_string (dataset_saveUrl e0) = false) as Hf by (by rewrite Hempty).
  split; [done|].
  pose proof (load_wf now doc) as Hwf0.
  destruct (run_attributes _ acts (load now doc) form e0 Hwf0)
    as (e & Hd & _ & Hs); [by rewrite load_document|].
  fold st in Hd.
  assert (truthy_string (dataset_saveUrl e) = false) as Hf' by (by rewrite Hs).
  destruct (falsy_inert _ st form e (reachable_wf now doc acts) Hd Hf')
    as (H1 & H2 & H3 & H4).
  split_done.
  rewrite load_without. eapply run_without; [exact Hwf0| |exact Hf].
  by rewrite load_document.
Qed.

Lemma empty_endpoint_no_effect_witness :
  let st := run [Edit 0 0 "x"; Dispatch 0 "input"; Wait 300;
                 Dispatch 0 "change"; Wait 5000] (load 0 [blank_form]) in
  truthy_string (Some EmptyString) = truthy_string None
  ∧ scheduleSave 0 st = st
  ∧ (∀ ty, step (Dispatch 0 ty) st = st)
  ∧ timers_of 0 st = []
  ∧ requests_of 0 st = []
  ∧ run [Edit 0 0 "x"; Dispatch 0 "input"; Wait 300;
         Dispatch 0 "change"; Wait 5000] (load 0 [plain_form])
    = without_endpoint 0 st.
Proof.
  apply (empty_endpoint_no_effect 0 [blank_form]
           [Edit 0 0 "x"; Dispatch 0 "input"; Wait 300;
            Dispatch 0 "change"; Wait 5000] 0 blank_form).
  - reflexivity.
  - reflexivity.
Defined.

(** ** At most one pending timer *)

(** C4.  In every reachable state, and so after every further action
    (event handler or timer expiry), a form owns at most one pending timer.
    A qualifying event on a marked form with an endpoint leaves the form
    with exactly the timer it has just scheduled: whatever timer the form
    owned before is no longer pending. *)
Theorem one_pending_timer_per_form now doc acts form :
  let st := run acts (load now doc) in
  length (timers_of form st) ≤ 1
  ∧ (∀ a, length (timers_of form (step a st)) ≤ 1)
  ∧ ∀ e0 ty,
      doc !! form = Some e0 →
      matches_autosave e0 = true →
      truthy_string (dataset_saveUrl e0) = true →
      qualifying ty →
      timers_of form (dispatch form ty st) =
        [Timer (next_handle st) (clock st + DELAY)%N form]
      ∧ ∀ t, t ∈ timers_of form st → t ∉ timers (dispatch form ty st).
Proof.
  intros st. pose proof (reachable_wf now doc acts) as Hwf. fold st in Hwf.
  split; [|split].
  - apply timers_of_at_most_one, (wf_single _ _ Hwf).
  - intros a. apply timers_of_at_most_one.
    apply (wf_single _ _ (step_wf _ a st Hwf)).
  - intros e0 ty Hdoc Hm Hurl Hq.
    destruct (autosaved_form now doc acts form e0 Hdoc Hm Hurl)
      as (Hsel & e & Hd & Hs & Hu).
    fold st in Hd.
    destruct (dispatch_self_timers _ st form e ty Hwf Hsel Hq Hd Hu)
      as (Ht1 & _).
    split; [done|].
    intros t [Hown Ht]%list_elem_of_filter.
    erewrite dispatch_self by eauto. cbn.
    rewrite elem_of_app, list_elem_of_filter, list_elem_of_singleton.
    intros [[Hne _]| ->]; [done|].
    pose proof (wf_owner _ _ Hwf _ Ht) as Hcell.
    apply (wf_handle _ _ Hwf) in Hcell. cbn in Hcell. lia.
Qed.

Lemma one_pending_timer_per_form_witness :
  let st := run [Dispatch 0 "input"; Wait 300] (load 0 [shift_form]) in
  timers_of 0 (dispatch 0 "change" st) =
    [Timer (next_handle st) (clock st + DELAY)%N 0]
  ∧ ∀ t, t ∈ timers_of 0 st → t ∉ timers (dispatch 0 "change" st).
Proof.
  intros st.
  destruct (one_pending_timer_per_form 0 [shift_form]
              [Dispatch 0 "input"; Wait 300] 0) as (_ & _ & Hevent).
  apply (Hevent shift_form "change").
  - reflexivity.
  - reflexivity.
  - reflexivity.
  - right. reflexivity.
Defined.

(** ** After a timer has fired *)

Lemma scheduleSave_cases sel st form :
  wf sel st →
  scheduleSave form st = st
  ∨ scheduleSave form st =
    State (clock st) (document st)
          (<[form := Some (next_handle st)]> (timeoutId st)) (listeners st)
          (next_handle st + 1)%N
          (filter (λ t, t_owner t ≠ form) (timers st)
             ++ [Timer (next_handle st) (clock st + DELAY)%N form])
          (requests st) (inflight st) (unhandled st).
Proof.
  intros Hwf.
  destruct (document st !! form) as [e|] eqn:Hdoc;
    [|left; unfold scheduleSave; by rewrite Hdoc].
  destruct (timeoutId st !! form) as [cell|] eqn:Hcell;
    [|left; by rewrite scheduleSave_unbound].
  destruct (truthy_string (dataset_saveUrl e)) eqn:Hurl;
    [|left; by erewrite scheduleSave_inert].
  right. eapply scheduleSave_spec; eauto.
Qed.

Lemma handle_stays sel st form h a :
  wf sel st → timeoutId st !! form = Some (Some h) →
  ∃ h', timeoutId (step a st) !! form = Some (Some h').
Proof.
  intros Hwf Hcell. destruct a as [el ty|el k v|e0|dt|k o|el cs]; cbn [step].
  - rewrite (dispatch_spec sel) by done. case_bool_decide; [|eauto].
    destruct (scheduleSave_cases sel st el Hwf) as [->| ->]; [eauto|]. cbn.
    destruct (decide (el = form)) as [->|Hne].
    + rewrite lookup_insert_eq. eauto.
    + rewrite lookup_insert_ne by done. eauto.
  - eauto.
  - eauto.
  - destruct (wait_spec sel dt st Hwf) as (_ & (_ & -> & _) & _). eauto.
  - rewrite settle_spec. eauto.
  - eauto.
Qed.

Lemma stale_clearTimeout sel st form h :
  wf sel st → timeoutId st !! form = Some (Some h) →
  timers_of form st = [] →
  clearTimeout (Some h) st = st.
Proof.
  intros Hwf Hcell Hnone. unfold clearTimeout, set_timers.
  rewrite filter_all; [by destruct st|].
  intros x Hx. apply (owner_of_handle sel st x form h Hwf Hx Hcell).
  intros Heq.
  assert (x ∈ timers_of form st) as Hin by (by apply list_elem_of_filter).
  rewrite Hnone in Hin. by inversion Hin.
Qed.

Lemma single_cycle sel st form e ty dt :
  wf sel st → form ∈ sel →
  document st !! form = Some e →
  truthy_string (dataset_saveUrl e) = true →
  qualifying ty → (DELAY ≤ dt)%N →
  let st' := wait dt (dispatch form ty st) in
  wf sel st'
  ∧ document st' = document st
  ∧ timers_of form st' = []
  ∧ requests_of form st' =
      requests_of form st ++ [save_request form e (clock st + DELAY)].
Proof.
  intros Hwf Hsel Hdoc Hurl Hq Hdt st'.
  destruct (dispatch_self_timers _ st form e ty Hwf Hsel Hq Hdoc Hurl)
    as (Ht1 & Hr1 & Hd1 & Hc1).
  pose proof (dispatch_wf _ form ty st Hwf) as Hwf1.
  set (st1 := dispatch form ty st) in *.
  assert (document st1 !! form = Some e) as Hdoc1 by (by rewrite Hd1).
  destruct (wait_spec sel dt st1 Hwf1) as (Hwf2 & (Hd2 & _) & _).
  destruct (wait_form_late _ st1 form e dt _ Hwf1 Hdoc1 Ht1) as [Ht2 Hr2].
  { cbn [t_due]. lia. }
  split; [done|]. split; [by rewrite <- Hd1|]. split; [done|].
  subst st'. rewrite Hr2. unfold requests_of at 1. rewrite Hr1. done.
Qed.

Lemma cycles_run sel st form e ty dt n :
  wf sel st → form ∈ sel →
  document st !! form = Some e →
  truthy_string (dataset_saveUrl e) = true →
  qualifying ty → (DELAY ≤ dt)%N →
  length (requests_of form (run (cycles form ty dt n) st)) =
  length (requests_of form st) + n.
Proof.
  intros Hwf Hsel Hdoc Hurl Hq Hdt. revert st Hwf Hdoc.
  induction n as [|n IH]; intros st Hwf Hdoc; [cbn; lia|].
  cbn [cycles]. rewrite !run_cons. cbn [step].
  destruct (single_cycle sel st form e ty dt Hwf Hsel Hdoc Hurl Hq Hdt)
    as (Hwf' & Hd' & _ & Hr').
  rewrite IH; [|done|by rewrite Hd'].
  rewrite Hr', length_app. cbn. lia.
Qed.

(** C10.  Expiry of a form's timer removes it from the pending timers but
    leaves the handle in the closure's [timeoutId]: no action ever makes a
    stored handle [null] again.  Cancelling that expired handle changes
    nothing; the next qualifying event still leaves the form with a fresh
    800 ms timer, whose expiry sends a call; and [n] rounds of one event
    followed by a quiet period of at least 800 ms send [n] calls. *)
Theorem expired_handle_is_harmless now doc pre form e0 t dt0 ty dt :
  doc !! form = Some e0 →
  matches_autosave e0 = true →
  truthy_string (dataset_saveUrl e0) = true →
  qualifying ty →
  (DELAY ≤ dt)%N →
  let st0 := run pre (load now doc) in
  timers_of form st0 = [t] →
  (t_due t ≤ clock st0 + dt0)%N →
  let st := wait dt0 st0 in
  timers_of form st = []
  ∧ timeoutId st !! form = Some (Some (t_id t))
  ∧ (∀ acts, ∃ h', timeoutId (run acts st) !! form = Some (Some h'))
  ∧ clearTimeout (Some (t_id t)) st = st
  ∧ timers_of form (dispatch form ty st) =
      [Timer (next_handle st) (clock st + DELAY)%N form]
  ∧ (∃ e, document st !! form = Some e
        ∧ requests_of form (run [Dispatch form ty; Wait dt] st) =
            requests_of form st ++ [save_request form e (clock st + DELAY)])
  ∧ ∀ n, length (requests_of form (run (cycles form ty dt n) st)) =
         length (requests_of form st) + n.
Proof.
  intros Hdoc Hm Hurl Hq Hdt st0 Ht Hdue st.
  pose proof (reachable_wf now doc pre) as Hwf0. fold st0 in Hwf0.
  destruct (autosaved_form now doc pre form e0 Hdoc Hm Hurl)
    as (Hsel & e & Hd0 & Hs & Hu).
  fold st0 in Hd0.
  destruct (wait_spec _ dt0 st0 Hwf0) as (Hwf & (Hd & Hc & _) & _).
  fold st in Hwf, Hd, Hc.
  destruct (wait_form_late _ st0 form e dt0 t Hwf0 Hd0 Ht Hdue) as [Hnone _].
  fold st in Hnone.
  assert (timeoutId st !! form = Some (Some (t_id t))) as Hcell.
  { rewrite Hc.
    assert (t ∈ timers_of form st0) as Hin by (rewrite Ht; left).
    apply list_elem_of_filter in Hin as [<- Hin].
    by apply (wf_owner _ _ Hwf0). }
  assert (document st !! form = Some e) as Hdoc' by (by rewrite Hd).
  split; [done|]. split; [done|]. split; [|split; [|split; [|split]]].
  - intros acts. revert Hwf Hcell. generalize (t_id t). generalize st.
    induction acts as [|a acts IH]; intros s h Hwf Hcell; [eauto|].
    rewrite run_cons.
    destruct (handle_stays _ s form h a Hwf Hcell) as [h' Hcell'].
    eapply IH; [by apply step_wf|exact Hcell'].
  - by eapply stale_clearTimeout.
  - by destruct (dispatch_self_timers _ st form e ty Hwf Hsel Hq Hdoc' Hu).
  - exists e. split; [done|].
    change (run [Dispatch form ty; Wait dt] st)
      with (wait dt (dispatch form ty st)).
    by destruct (single_cycle _ st form e ty dt Hwf Hsel Hdoc' Hu Hq Hdt)
      as (_ & _ & _ & ->).
  - intros n. by eapply cycles_run.
Qed.

Lemma expired_handle_is_harmless_witness :
  let st := wait 800 (run [Dispatch 0 "input"] (load 0 [shift_form])) in
  timers_of 0 st = []
  ∧ timeoutId st !! 0 = Some (Some 1%N)
  ∧ (∀ acts, ∃ h', timeoutId (run acts st) !! 0 = Some (Some h'))
  ∧ clearTimeout (Some 1%N) st = st
  ∧ timers_of 0 (dispatch 0 "input" st) =
      [Timer (next_handle st) (clock st + DELAY)%N 0]
  ∧ (∃ e, document st !! 0 = Some e
        ∧ requests_of 0 (run [Dispatch 0 "input"; Wait 900] st) =
            requests_of 0 st ++ [save_request 0 e (clock st + DELAY)])
  ∧ ∀ n, length (requests_of 0 (run (cycles 0 "input" 900 n) st)) =
         length (requests_of 0 st) + n.
Proof.
  apply (expired_handle_is_harmless 0 [shift_form] [Dispatch 0 "input"] 0
           shift_form (Timer 1 800 0) 800 "input" 900).
  - reflexivity.
  - reflexivity.
  - reflexivity.
  - left. reflexivity.
  - vm_compute. discriminate.
  - reflexivity.
  - vm_compute. discriminate.
Defined.

(** ** Failures of the network *)

(** C5.  A rejected fetch is absorbed by the [catch] handler: the derived
    promise is fulfilled, so no state the page reaches holds an unhandled
    rejection, whatever failures happened on the way.  Settling a call with
    a failure leaves the network log and the timer table (nothing is sent
    again, nothing is scheduled), the document (nothing is shown) and the
    closures as they are, and afterwards a qualifying event on a marked form
    with an endpoint is again followed, 800 ms later, by one call, and [n]
    rounds of event and quiet period by [n] calls. *)
Theorem transport_failure_is_swallowed now doc acts k reason :
  let st := run acts (load now doc) in
  let st' := settle k (Rejected reason) st in
  promise_catch on_rejected (Rejected reason) = Fulfilled 0 EmptyString
  ∧ unhandled st = []
  ∧ unhandled st' = []
  ∧ requests st' = requests st
  ∧ timers st' = timers st
  ∧ document st' = document st
  ∧ timeoutId st' = timeoutId st
  ∧ listeners st' = listeners st
  ∧ ∀ form e0 ty dt,
      doc !! form = Some e0 →
      matches_autosave e0 = true →
      truthy_string (dataset_saveUrl e0) = true →
      qualifying ty →
      (DELAY ≤ dt)%N →
      (∃ e, document st' !! form = Some e
          ∧ requests_of form (run [Dispatch form ty; Wait dt] st') =
              requests_of form st'
              ++ [save_request form e (clock st' + DELAY)])
      ∧ ∀ n, length (requests_of form (run (cycles form ty dt n) st')) =
             length (requests_of form st') + n.
Proof.
  intros st st'.
  pose proof (reachable_wf now doc acts) as Hwf. fold st in Hwf.
  pose proof (settle_wf _ k (Rejected reason) st Hwf) as Hwf'. fold st' in Hwf'.
  split; [done|]. split; [apply (wf_unhandled _ _ Hwf)|].
  split; [apply (wf_unhandled _ _ Hwf')|].
  subst st'. rewrite settle_spec in *. cbn [requests timers document timeoutId listeners].
  split_done.
  intros form e0 ty dt Hdoc Hm Hurl Hq Hdt.
  destruct (autosaved_form now doc acts form e0 Hdoc Hm Hurl)
    as (Hsel & e & Hd & Hs & Hu).
  fold st in Hd. split.
  - exists e. split; [done|].
    set (s := State _ _ _ _ _ _ _ _ _) in *.
    change (run [Dispatch form ty; Wait dt] s)
      with (wait dt (dispatch form ty s)).
    by destruct (single_cycle _ s form e ty dt Hwf' Hsel Hd Hu Hq Hdt)
      as (_ & _ & _ & ->).
  - intros n. by eapply cycles_run.
Qed.

Lemma transport_failure_is_swallowed_witness :
  let st' := settle 0 (Rejected "net::ERR_FAILED")
               (run [Dispatch 0 "input"; Wait 800] (load 0 [shift_form])) in
  (∃ e, document st' !! 0 = Some e
      ∧ requests_of 0 (run [Dispatch 0 "change"; Wait 800] st') =
          requests_of 0 st' ++ [save_request 0 e (clock st' + DELAY)])
  ∧ ∀ n, length (requests_of 0 (run (cycles 0 "change" 800 n) st')) =
         length (requests_of 0 st') + n.
Proof.
  intros st'.
  destruct (transport_failure_is_swallowed 0 [shift_form]
              [Dispatch 0 "input"; Wait 800] 0 "net::ERR_FAILED")
    as (_ & _ & _ & _ & _ & _ & _ & _ & Hlater).
  apply (Hlater 0 shift_form "change" 800%N).
  - reflexivity.
  - reflexivity.
  - reflexivity.
  - right. reflexivity.
  - vm_compute. discriminate.
Defined.

(** ** Shape of the calls *)


Lemma step_new_requests sel a st :
  wf sel st →
  ∃ new, requests (step a st) = requests st ++ new
       ∧ ∀ r, r ∈ new →
           ∃ e, document st !! r_origin r = Some e
              ∧ r = save_request (r_origin r) e (r_time r).
Proof.
  intros Hwf.
  assert (∀ s, requests s = requests st →
            ∃ new, requests s = requests st ++ new
                 ∧ ∀ r, r ∈ new →
                     ∃ e, document st !! r_origin r = Some e
                        ∧ r = save_request (r_origin r) e (r_time r)) as Hsame.
  { intros s ->. exists []. rewrite app_nil_r. split; [done|].
    intros r Hr. by inversion Hr. }
  destruct a as [el ty|el k v|e0|dt|k o|el cs]; cbn [step].
  - apply Hsame. rewrite (dispatch_spec sel) by done.
    case_bool_decide; [|done].
    by destruct (scheduleSave_cases sel st el Hwf) as [->| ->].
  - by apply Hsame.
  - by apply Hsame.
  - destruct (wait_spec sel dt st Hwf)
      as (_ & (_ & _ & _ & _ & _ & _ & new & Hreq & Hnew) & _).
    exists new. split; [done|]. intros r Hr.
    assert (r ∈ filter (λ x, r_origin x = r_origin r) new) as Hin
      by (by apply list_elem_of_filter).
    rewrite Hnew in Hin.
    destruct (document st !! r_origin r) as [e|]; [|by inversion Hin].
    exists e. split; [done|]. cbn in Hin. unfold fired in Hin.
    apply list_elem_of_fmap in Hin as (d & Hr' & _).
    rewrite Hr' at 1. f_equal. by rewrite Hr'.
  - apply Hsame. by rewrite settle_spec.
  - by apply Hsame.
Qed.




(** ** Forms that arrive after loading *)

(** C9.  The bound forms are those the one query at load time returned:
    in every reachable state the listener table is the one built at load
    and a closure exists exactly for the selected elements.  An element at
    a position the loaded document did not have (one inserted later) has no
    listener and no closure; events dispatched to it change nothing, it owns
    no timer and no call comes from it, whatever class and endpoint it
    declares. *)
Theorem late_form_is_never_autosaved now doc acts form :
  length doc ≤ form →
  let st := run acts (load now doc) in
  listeners st = listeners (load now doc)
  ∧ (∀ el, is_Some (timeoutId st !! el) ↔ el ∈ autosaveForms doc)
  ∧ (∀ ty, (form, ty) ∉ listeners st)
  ∧ timeoutId st !! form = None
  ∧ (∀ ty, step (Dispatch form ty) st = st)
  ∧ timers_of form st = []
  ∧ requests_of form st = [].
Proof.
  intros Hlate st.
  pose proof (reachable_wf now doc acts) as Hwf. fold st in Hwf.
  pose proof (load_wf now doc) as Hwf0.
  assert (form ∉ autosaveForms doc) as Hnot.
  { unfold autosaveForms. rewrite querySelectorAll_elem.
    intros (_ & e & Hl & _).
    apply lookup_lt_Some in Hl. lia. }
  assert (timeoutId st !! form = None) as Hcell.
  { apply eq_None_not_Some. by rewrite <- (wf_bound _ _ Hwf). }
  split; [by rewrite (wf_listeners _ _ Hwf), (wf_listeners _ _ Hwf0)|].
  split; [intros el; by rewrite (wf_bound _ _ Hwf)|].
  split; [|split; [done|split; [|split]]].
  - intros ty. rewrite (wf_listeners _ _ Hwf). unfold listeners_for.
    rewrite list_elem_of_bind. intros (el & Hin & Hel).
    apply elem_of_cons in Hin as [Heq|Hin].
    + injection Heq as -> _. done.
    + apply list_elem_of_singleton in Hin. injection Hin as -> _. done.
  - intros ty. cbn [step]. rewrite (dispatch_spec _ st) by done.
    rewrite bool_decide_eq_false_2; [done|]. by intros [? _].
  - apply filter_none. intros t Ht Heq.
    pose proof (wf_owner _ _ Hwf t Ht) as Hown.
    rewrite Heq, Hcell in Hown. done.
  - apply filter_none. intros r Hr Heq.
    destruct (wf_requests _ _ Hwf r Hr) as (_ & _ & _ & _ & _ & _ & Hb).
    rewrite Heq, Hcell in Hb. by destruct Hb.
Qed.

Lemma late_form_is_never_autosaved_witness :
  let st := run [Insert shift_form; Edit 1 0 "x"; Dispatch 1 "input";
                 Wait 300; Dispatch 1 "change"; Wait 5000]
              (load 0 [shift_form]) in
  listeners st = listeners (load 0 [shift_form])
  ∧ (∀ el, is_Some (timeoutId st !! el) ↔ el ∈ autosaveForms [shift_form])
  ∧ (∀ ty, (1, ty) ∉ listeners st)
  ∧ timeoutId st !! 1 = None
  ∧ (∀ ty, step (Dispatch 1 ty) st = st)
  ∧ timers_of 1 st = []
  ∧ requests_of 1 st = [].
Proof.
  apply (late_form_is_never_autosaved 0 [shift_form]
           [Insert shift_form; Edit 1 0 "x"; Dispatch 1 "input";
            Wait 300; Dispatch 1 "change"; Wait 5000] 1).
  cbn. lia.
Defined.

Example late_form_is_in_the_document :
  document (run [Insert shift_form; Edit 1 0 "x"; Dispatch 1 "input";
                 Wait 300; Dispatch 1 "change"; Wait 5000]
              (load 0 [shift_form])) !! 1
  = Some (Element ["autosave-form"] (Some "/save/42") [text_field "notes" "x"]).
Proof. reflexivity. Qed.

(** ** Independence of forms *)

Lemma due_filter limit (ts : list timer) :
  t_due <$> filter (λ t, (limit < t_due t)%N) ts
  = filter (λ d, (limit < d)%N) (t_due <$> ts).
Proof.
  induction ts as [|t ts IH]; [done|].
  rewrite fmap_cons, !filter_cons. cbn.
  destruct (decide (limit < t_due t)%N); by rewrite ?fmap_cons, IH.
Qed.

Lemma wait_form_gen sel st form dt :
  wf sel st →
  t_due <$> timers_of form (wait dt st) =
    filter (λ d, (clock st + dt < d)%N) (t_due <$> timers_of form st)
  ∧ requests_of form (wait dt st) =
      requests_of form st
      ++ from_option
           (λ e, fired form e (clock st + dt) (t_due <$> timers_of form st))
           [] (document st !! form)
  ∧ document (wait dt st) = document st
  ∧ clock (wait dt st) = (clock st + dt)%N.
Proof.
  intros Hwf.
  destruct (wait_spec sel dt st Hwf) as (_ & Hadv & Hck).
  destruct Hadv as (Hd & _ & _ & _ & _ & Hts & new & Hreq & Hnew).
  rewrite <- due_filter.
  unfold timers_of, requests_of. rewrite Hts, Hreq, filter_app, Hnew.
  repeat split; try done.
  f_equal. rewrite !list_filter_filter. apply filter_agree. tauto.
Qed.

Lemma scheduleSave_self sel st form e :
  wf sel st → form ∈ sel →
  document st !! form = Some e →
  truthy_string (dataset_saveUrl e) = true →
  timers_of form (scheduleSave form st) =
    [Timer (next_handle st) (clock st + DELAY)%N form]
  ∧ requests (scheduleSave form st) = requests st
  ∧ document (scheduleSave form st) = document st
  ∧ clock (scheduleSave form st) = clock st.
Proof.
  intros Hwf Hsel Hdoc Hurl.
  erewrite scheduleSave_spec; eauto; [|by apply (wf_bound _ _ Hwf)].
  unfold timers_of. cbn. repeat split.
  rewrite filter_app, list_filter_filter, filter_none by tauto.
  by rewrite filter_cons_True.
Qed.

Section Simulation.

Context (sel : list nat) (form : nat).

Lemma agree_step a s1 s2 :
  wf sel s1 → wf sel s2 → agree form s1 s2 →
  agree form (step a s1) (step a s2).
Proof.
  intros Hwf1 Hwf2 (Hc & Hd & Hl & Ht & Hr).
  destruct a as [el ty|el k v|e0|dt|k o|el cs]; cbn [step].
  - destruct (decide (el = form)) as [->|Hne].
    + rewrite !(dispatch_spec sel) by done.
      case_bool_decide as Hrun; [|by repeat split].
      destruct Hrun as [Hsel Hq].
      destruct (document s1 !! form) as [e|] eqn:Hd1; symmetry in Hd.
      * destruct (truthy_string (dataset_saveUrl e)) eqn:Hurl.
        -- destruct (scheduleSave_self sel s1 form e Hwf1 Hsel Hd1 Hurl)
             as (Ht1 & Hr1 & Hdoc1 & Hc1).
           destruct (scheduleSave_self sel s2 form e Hwf2 Hsel Hd Hurl)
             as (Ht2 & Hr2 & Hdoc2 & Hc2).
           unfold agree, requests_of.
           rewrite Ht1, Ht2, Hr1, Hr2, Hdoc1, Hdoc2, Hc1, Hc2, Hc, Hd1, Hd.
           by repeat split.
        -- erewrite !scheduleSave_inert by eauto.
           repeat split; congruence.
      * unfold scheduleSave. rewrite Hd1, Hd.
        repeat split; congruence.
    + assert (on_other form (Dispatch el ty) = true) as Ho.
      { cbn. by apply negb_true_iff, Nat.eqb_neq. }
      destruct (on_other_frame sel s1 form _ Hwf1 Ho)
        as ((Hc1 & Ht1 & Hr1 & _) & Hd1 & Hl1).
      destruct (on_other_frame sel s2 form _ Hwf2 Ho)
        as ((Hc2 & Ht2 & Hr2 & _) & Hd2 & Hl2).
      cbn [step] in *. unfold agree.
      rewrite Hc1, Hc2, Ht1, Ht2, Hr1, Hr2, Hd1, Hd2, Hl1, Hl2.
      by repeat split.
  - unfold agree, edit, timers_of, requests_of. cbn.
    rewrite !list_lookup_alter, !length_alter, Hd.
    repeat split; try done. case_decide; [|done]. subst. by rewrite Hd.
  - unfold agree, insert_element, timers_of, requests_of. cbn.
    rewrite !lookup_app, !length_app, Hd, Hl. by repeat split.
  - destruct (wait_form_gen sel s1 form dt Hwf1) as (Ht1 & Hr1 & Hd1 & Hc1).
    destruct (wait_form_gen sel s2 form dt Hwf2) as (Ht2 & Hr2 & Hd2 & Hc2).
    unfold agree.
    rewrite Ht1, Ht2, Hr1, Hr2, Hd1, Hd2, Hc1, Hc2, Hc, Hd, Hl, Ht, Hr.
    by repeat split.
  - rewrite !settle_spec. by repeat split.
  - unfold agree, set_controls, timers_of, requests_of. cbn.
    rewrite !list_lookup_alter, !length_alter, Hd.
    repeat split; try done. case_decide; [|done]. subst. by rewrite Hd.
Qed.

Lemma agree_skip a s1 s2 :
  wf sel s1 → on_other form a = true → agree form s1 s2 →
  agree form (step a s1) s2.
Proof.
  intros Hwf1 Ho (Hc & Hd & Hl & Ht & Hr).
  destruct (on_other_frame sel s1 form a Hwf1 Ho)
    as ((Hc1 & Ht1 & Hr1 & _) & Hd1 & Hl1).
  unfold agree. rewrite Hc1, Ht1, Hr1, Hd1, Hl1. by repeat split.
Qed.

Lemma agree_run acts s1 s2 :
  wf sel s1 → wf sel s2 → agree form s1 s2 →
  agree form (run acts s1) (run (own_actions form acts) s2).
Proof.
  revert s1 s2. induction acts as [|a acts IH]; intros s1 s2 Hwf1 Hwf2 Hag;
    [done|].
  rewrite run_cons. unfold own_actions. cbn [List.filter].
  destruct (on_other form a) eqn:Ho; cbn [negb].
  - apply IH; auto using agree_skip with autosave.
  - rewrite run_cons. apply IH; auto using agree_step with autosave.
Qed.

End Simulation.

(** C7.  An event or an edit addressed to another element leaves a form's
    timers, stored handle, calls and element as they are.  More generally
    what a form shows (clock, element, whether it is bound, due times of its
    pending timers, its calls) after any sequence of actions is what it
    shows after the same sequence with the events and edits addressed to
    other elements taken out. *)
Theorem forms_are_independent now doc pre form :
  let st := run pre (load now doc) in
  (∀ a, on_other form a = true →
     undisturbed form st (step a st)
     ∧ document (step a st) !! form = document st !! form)
  ∧ ∀ acts,
      observe form (run acts st)
      = observe form (run (own_actions form acts) st).
Proof.
  intros st. pose proof (reachable_wf now doc pre) as Hwf. fold st in Hwf.
  split.
  - intros a Ho.
    destruct (on_other_frame _ st form a Hwf Ho) as (Hu & Hd & _). done.
  - intros acts.
    assert (agree form st st) as Hag by (by repeat split).
    destruct (agree_run _ form acts st st Hwf Hwf Hag) as (Hc & Hd & _ & Ht & Hr).
    pose proof (run_wf _ acts st Hwf) as Hwf1.
    pose proof (run_wf _ (own_actions form acts) st Hwf) as Hwf2.
    unfold observe. rewrite Hc, Hd, Ht, Hr. f_equal.
    apply bool_decide_ext.
    by rewrite <- (wf_bound _ _ Hwf1), <- (wf_bound _ _ Hwf2).
Qed.

Lemma forms_are_independent_witness :
  let st := run [Dispatch 0 "input"; Wait 300; Dispatch 1 "change"]
              (load 0 [shift_form; other_form]) in
  undisturbed 0 st (step (Dispatch 1 "input") st)
  ∧ document (step (Dispatch 1 "input") st) !! 0 = document st !! 0.
Proof.
  intros st.
  destruct (forms_are_independent 0 [shift_form; other_form]
              [Dispatch 0 "input"; Wait 300; Dispatch 1 "change"] 0)
    as (Hframe & _).
  apply (Hframe (Dispatch 1 "input")). reflexivity.
Defined.

Example two_forms :
  requests
    (run [Edit 0 0 "late"; Dispatch 0 "input"; Wait 500;
          Edit 1 0 "9"; Dispatch 1 "change"; Wait 500; Wait 500]
       (load 0 [shift_form; other_form]))
  = [ Request 800 0 "/save/42" "POST" [("X-Requested-With", "fetch")]
              [("notes", "late")] multipart_form_data;
      Request 1300 1 "/save/7" "POST" [("X-Requested-With", "fetch")]
              [("hours", "9")] multipart_form_data ].
Proof. vm_compute. reflexivity. Qed.

(** * Further properties of the script *)

(** ** Which events run the handler *)

(** X1.  The two [addEventListener] calls bind one handler to two event
    types: in every reachable state, dispatching an event runs
    [scheduleSave] of an element exactly once when the element was selected
    at load and the type is "input" or "change", and runs nothing
    otherwise. *)
Theorem handler_runs_once_per_event now doc acts el ty :
  let st := run acts (load now doc) in
  step (Dispatch el ty) st =
  if bool_decide (el ∈ autosaveForms doc ∧ qualifying ty)
  then scheduleSave el st else st.
Proof.
  intros st. cbn [step].
  apply dispatch_spec, reachable_wf.
Qed.

Lemma unbound_inert sel st form :
  wf sel st → form ∉ sel →
  timeoutId st !! form = None
  ∧ (∀ ty, (form, ty) ∉ listeners st)
  ∧ (∀ ty, dispatch form ty st = st)
  ∧ timers_of form st = []
  ∧ requests_of form st = [].
Proof.
  intros Hwf Hnot.
  assert (timeoutId st !! form = None) as Hcell.
  { apply eq_None_not_Some. by rewrite <- (wf_bound _ _ Hwf). }
  split; [done|]. split; [|split; [|split]].
  - intros ty. rewrite (wf_listeners _ _ Hwf). unfold listeners_for.
    rewrite list_elem_of_bind. intros (el & Hin & Hel).
    apply elem_of_cons in Hin as [Heq|Hin].
    + injection Heq as -> _. done.
    + apply list_elem_of_singleton in Hin. injection Hin as -> _. done.
  - intros ty. rewrite (dispatch_spec _ st) by done.
    rewrite bool_decide_eq_false_2; [done|]. by intros [? _].
  - apply filter_none. intros t Ht Heq.
    pose proof (wf_owner _ _ Hwf t Ht) as Hown.
    rewrite Heq, Hcell in Hown. done.
  - apply filter_none. intros r Hr Heq.
    destruct (wf_requests _ _ Hwf r Hr) as (_ & _ & _ & _ & _ & _ & Hb).
    rewrite Heq, Hcell in Hb. by destruct Hb.
Qed.

(** X2.  An element of the loaded document that does not carry the class
    [autosave-form] is not selected: it gets no closure and no listener, so
    events on it change nothing, it never owns a timer and no call ever
    comes from it, even when it declares a [data-save-url]. *)
Theorem unmarked_element_is_never_autosaved now doc acts form e0 :
  doc !! form = Some e0 →
  matches_autosave e0 = false →
  let st := run acts (load now doc) in
  (form ∉ autosaveForms doc)
  ∧ timeoutId st !! form = None
  ∧ (∀ ty, (form, ty) ∉ listeners st)
  ∧ (∀ ty, step (Dispatch form ty) st = st)
  ∧ timers_of form st = []
  ∧ requests_of form st = [].
Proof.
  intros Hdoc Hm st.
  assert (form ∉ autosaveForms doc) as Hnot.
  { unfold autosaveForms. rewrite querySelectorAll_elem.
    intros (_ & e & Hl & He). rewrite Nat.sub_0_r, Hdoc in Hl.
    injection Hl as <-. congruence. }
  split; [done|].
  by apply (unbound_inert _ st form (reachable_wf now doc acts)).
Qed.

Lemma unmarked_element_is_never_autosaved_witness :
  let st := run [Edit 1 0 "x"; Dispatch 1 "input"; Wait 300;
                 Dispatch 1 "change"; Wait 5000]
              (load 0 [shift_form; unmarked_form]) in
  (1 ∉ autosaveForms [shift_form; unmarked_form])
  ∧ timeoutId st !! 1 = None
  ∧ (∀ ty, (1, ty) ∉ listeners st)
  ∧ (∀ ty, step (Dispatch 1 ty) st = st)
  ∧ timers_of 1 st = []
  ∧ requests_of 1 st = [].
Proof.
  apply (unmarked_element_is_never_autosaved 0 [shift_form; unmarked_form]
           [Edit 1 0 "x"; Dispatch 1 "input"; Wait 300;
            Dispatch 1 "change"; Wait 5000] 1 unmarked_form).
  - reflexivity.
  - reflexivity.
Defined.

(** ** No save without an event *)

Lemma length_filter_split limit (l : list N) :
  length (filter (λ d, (d ≤ limit)%N) l)
  + length (filter (λ d, (limit < d)%N) l) = length l.
Proof.
  induction l as [|d l IH]; [done|].
  rewrite !filter_cons.
  destruct (decide (d ≤ limit)%N), (decide (limit < d)%N); cbn; lia.
Qed.

Lemma timers_of_scheduled form h due (ts : list timer) :
  filter (λ t, t_owner t = form)
    (filter (λ t, t_owner t ≠ form) ts ++ [Timer h due form])
  = [Timer h due form].
Proof.
  rewrite filter_app, list_filter_filter, filter_none by tauto.
  by rewrite filter_cons_True.
Qed.

Lemma pending_and_sent_step sel form a st :
  wf sel st →
  length (requests_of form (step a st)) + length (timers_of form (step a st))
  ≤ length (requests_of form st) + length (timers_of form st)
    + (if is_event_on form a then 1 else 0).
Proof.
  intros Hwf.
  pose proof (timers_of_at_most_one (timers st) form (wf_single _ _ Hwf)) as H1.
  destruct (silent form a) eqn:Hs.
  { destruct (silent_frame sel st form a Hwf Hs) as [(_ & -> & -> & _) _]. lia. }
  destruct a as [el ty|el k v|e0|dt|k o|el cs]; cbn in Hs; try done.
  - apply negb_false_iff, Nat.eqb_eq in Hs as ->. cbn [step is_event_on].
    rewrite Nat.eqb_refl. cbn [andb].
    rewrite (dispatch_spec sel) by done.
    case_bool_decide as Hrun.
    + destruct Hrun as [_ Hq]. rewrite bool_decide_eq_true_2 by done.
      destruct (scheduleSave_cases sel st form Hwf) as [->| ->]; [lia|].
      unfold timers_of, requests_of. cbn.
      rewrite timers_of_scheduled. cbn. lia.
    + lia.
  - cbn [step is_event_on].
    destruct (wait_form_gen sel st form dt Hwf) as (Ht & Hr & _).
    rewrite Hr, length_app.
    rewrite <- (length_fmap t_due (timers_of form (wait dt st))), Ht.
    rewrite <- (length_fmap t_due (timers_of form st)).
    pose proof (length_filter_split (clock st + dt)
                  (t_due <$> timers_of form st)) as Hsplit.
    destruct (document st !! form) as [e|]; cbn.
    + unfold fired. rewrite length_fmap. lia.
    + lia.
Qed.

Lemma pending_and_sent_run sel form acts st :
  wf sel st →
  length (requests_of form (run acts st))
  + length (timers_of form (run acts st))
  ≤ length (requests_of form st) + length (timers_of form st)
    + count_events form acts.
Proof.
  revert st. induction acts as [|a acts IH]; intros st Hwf.
  - cbn. lia.
  - rewrite run_cons.
    pose proof (pending_and_sent_step _ form a st Hwf) as Hstep.
    pose proof (IH (step a st) (step_wf _ a st Hwf)) as Hrest.
    unfold count_events in *. cbn [List.filter].
    destruct (is_event_on form a); cbn [length]; lia.
Qed.

(** X3.  The script sends nothing on its own: at any moment the calls a
    form has sent plus the timer it may have pending number at most the
    "input" and "change" events dispatched to it so far.  In particular a
    form that received no such event has sent nothing, whatever was edited
    and however long the page has been open. *)
Theorem calls_bounded_by_events now doc acts form :
  let st := run acts (load now doc) in
  length (requests_of form st) + length (timers_of form st)
  ≤ count_events form acts.
Proof.
  intros st. subst st.
  pose proof (pending_and_sent_run _ form acts _ (load_wf now doc)) as Hrun.
  assert (requests_of form (load now doc) = []
          ∧ timers_of form (load now doc) = []) as [Hr Ht].
  { unfold requests_of, timers_of, load.
    destruct (forEach_spec (autosaveForms doc)
                (State now doc ∅ [] 1%N [] [] [] []))
      as (_ & _ & _ & -> & -> & _).
    done. }
  rewrite Hr, Ht in Hrun. cbn in Hrun. lia.
Qed.

(** ** How long a save can be pending *)

Lemma due_bound_step sel a st :
  wf sel st →
  (∀ t, t ∈ timers st → (t_due t ≤ clock st + DELAY)%N) →
  ∀ t, t ∈ timers (step a st) → (t_due t ≤ clock (step a st) + DELAY)%N.
Proof.
  intros Hwf Hb. destruct a as [el ty|el k v|e0|dt|k o|el cs]; cbn [step].
  - rewrite (dispatch_spec sel) by done. case_bool_decide; [|done].
    destruct (scheduleSave_cases sel st el Hwf) as [->| ->]; [done|]. cbn.
    intros t [[_ Ht]%list_elem_of_filter| ->%list_elem_of_singleton]%elem_of_app;
      [by apply Hb|done].
  - done.
  - done.
  - destruct (wait_spec sel dt st Hwf)
      as (_ & (_ & _ & _ & _ & _ & -> & _) & ->).
    intros t [_ Ht]%list_elem_of_filter. specialize (Hb t Ht). lia.
  - rewrite settle_spec. done.
  - done.
Qed.

Lemma due_bound_run sel acts st :
  wf sel st →
  (∀ t, t ∈ timers st → (t_due t ≤ clock st + DELAY)%N) →
  ∀ t, t ∈ timers (run acts st) → (t_due t ≤ clock (run acts st) + DELAY)%N.
Proof.
  revert st. induction acts as [|a acts IH]; intros st Hwf Hb; [done|].
  rewrite run_cons. apply IH; [by apply step_wf|by eapply due_bound_step].
Qed.

Lemma load_no_timers now doc : timers (load now doc) = [].
Proof.
  unfold load.
  by destruct (forEach_spec (autosaveForms doc)
                 (State now doc ∅ [] 1%N [] [] [] []))
    as (_ & _ & _ & -> & _).
Qed.

Lemma reachable_due_bound now doc acts t :
  t ∈ timers (run acts (load now doc)) →
  (t_due t ≤ clock (run acts (load now doc)) + DELAY)%N.
Proof.
  apply (due_bound_run _ acts _ (load_wf now doc)).
  rewrite load_no_timers. intros t' Ht'. by inversion Ht'.
Qed.

(** X4.  A pending timer is never overdue and never further away than the
    delay: in every reachable state each pending timer is due between now
    and 800 ms from now. *)
Theorem pending_timer_due_within_delay now doc acts t :
  let st := run acts (load now doc) in
  t ∈ timers st →
  (clock st ≤ t_due t)%N ∧ (t_due t ≤ clock st + DELAY)%N.
Proof.
  intros st Ht. split.
  - by apply (wf_due _ _ (reachable_wf now doc acts)).
  - by apply reachable_due_bound.
Qed.

Lemma pending_timer_due_within_delay_witness :
  (clock (run [Dispatch 0 "input"; Wait 300] (load 0 [shift_form])) ≤ 800)%N
  ∧ (800 ≤ clock (run [Dispatch 0 "input"; Wait 300] (load 0 [shift_form]))
           + DELAY)%N.
Proof.
  apply (pending_timer_due_within_delay 0 [shift_form]
           [Dispatch 0 "input"; Wait 300] (Timer 1 800 0)).
  vm_compute. left.
Defined.

(** X5.  Once 800 ms pass, whatever was pending has been sent: after a wait
    of at least the delay no timer is pending at all, and every form has
    sent exactly one more call for the timer it had pending, none
    otherwise. *)
Theorem quiet_period_flushes_all_timers now doc acts dt :
  (DELAY ≤ dt)%N →
  let st := run acts (load now doc) in
  timers (wait dt st) = []
  ∧ ∀ form,
      length (requests_of form (wait dt st))
      = length (requests_of form st) + length (timers_of form st).
Proof.
  intros Hdt st.
  pose proof (reachable_wf now doc acts) as Hwf. fold st in Hwf.
  split.
  - destruct (wait_spec _ dt st Hwf) as (_ & (_ & _ & _ & _ & _ & -> & _) & _).
    apply filter_none. intros t Ht.
    pose proof (reachable_due_bound now doc acts t Ht). fold st in H. lia.
  - intros form.
    destruct (wait_form_gen _ st form dt Hwf) as (_ & -> & _).
    rewrite length_app. f_equal.
    destruct (document st !! form) as [e|] eqn:Hdoc; cbn.
    + unfold fired. rewrite length_fmap, filter_all, length_fmap; [done|].
      intros d [t [-> [_ Ht]%list_elem_of_filter]]%list_elem_of_fmap.
      pose proof (reachable_due_bound now doc acts t Ht). fold st in H. lia.
    + unfold timers_of. rewrite filter_none; [done|].
      intros t Ht Heq. destruct (wf_url _ _ Hwf t Ht) as (e & Hd & _).
      rewrite Heq, Hdoc in Hd. done.
Qed.

Lemma quiet_period_flushes_all_timers_witness :
  let st := run [Dispatch 0 "input"; Wait 300; Dispatch 1 "change"]
              (load 0 [shift_form; other_form]) in
  timers (wait 800 st) = []
  ∧ ∀ form,
      length (requests_of form (wait 800 st))
      = length (requests_of form st) + length (timers_of form st).
Proof.
  apply (quiet_period_flushes_all_timers 0 [shift_form; other_form]
           [Dispatch 0 "input"; Wait 300; Dispatch 1 "change"] 800).
  vm_compute. discriminate.
Defined.

(** ** The guarded cancellation *)

(** X6.  The stored handle of a bound form is either [null] or the positive
    handle of the form's own latest timer, so the test [if (timeoutId)]
    succeeds exactly when a handle is stored, and the guarded
    [clearTimeout] removes the pending timer of that form, if any, and no
    timer of any other form. *)
Theorem guarded_cancel_removes_own_timer now doc acts form cell :
  let st := run acts (load now doc) in
  timeoutId st !! form = Some cell →
  let st1 := if truthy_handle cell then clearTimeout cell st else st in
  truthy_handle cell = bool_decide (is_Some cell)
  ∧ timers st1 = filter (λ t, t_owner t ≠ form) (timers st)
  ∧ timers_of form st1 = []
  ∧ ∀ other, other ≠ form → timers_of other st1 = timers_of other st.
Proof.
  intros st Hcell st1.
  pose proof (reachable_wf now doc acts) as Hwf. fold st in Hwf.
  assert (truthy_handle cell = bool_decide (is_Some cell)) as Htruthy.
  { destruct cell as [h|]; unfold truthy_handle.
    - destruct (wf_handle _ _ Hwf _ _ Hcell) as [Hpos _].
      rewrite bool_decide_eq_true_2 by eauto.
      apply negb_true_iff, N.eqb_neq. lia.
    - symmetry. apply bool_decide_eq_false_2. by intros [? ?]. }
  assert (timers st1 = filter (λ t, t_owner t ≠ form) (timers st)) as Hts.
  { subst st1. rewrite Htruthy. destruct cell as [h|].
    - rewrite bool_decide_eq_true_2 by eauto.
      unfold clearTimeout, set_timers. cbn [timers].
      apply filter_agree. intros t Ht. by eapply owner_of_handle.
    - rewrite bool_decide_eq_false_2 by (by intros [? ?]).
      symmetry. apply filter_all. intros t Ht Heq.
      pose proof (wf_owner _ _ Hwf t Ht) as Hown.
      rewrite Heq, Hcell in Hown. done. }
  split; [done|]. split; [done|]. unfold timers_of. rewrite Hts. split.
  - rewrite list_filter_filter. apply filter_none. tauto.
  - intros other Hne. rewrite list_filter_filter. apply filter_agree.
    intros t _. split; [tauto|]. intros Heq. split; [done|congruence].
Qed.

Lemma guarded_cancel_removes_own_timer_witness :
  let st := run [Dispatch 0 "input"; Wait 300; Dispatch 1 "change"]
              (load 0 [shift_form; other_form]) in
  let st1 := if truthy_handle (Some 1%N) then clearTimeout (Some 1%N) st
             else st in
  truthy_handle (Some 1%N) = bool_decide (is_Some (Some 1%N))
  ∧ timers st1 = filter (λ t, t_owner t ≠ 0) (timers st)
  ∧ timers_of 0 st1 = []
  ∧ ∀ other, other ≠ 0 → timers_of other st1 = timers_of other st.
Proof.
  apply (guarded_cancel_removes_own_timer 0 [shift_form; other_form]
           [Dispatch 0 "input"; Wait 300; Dispatch 1 "change"] 0
           (Some 1%N)).
  vm_compute. reflexivity.
Defined.

(** ** The network log *)

Lemma chronological_snoc l r :
  chronological l → (∀ a, a ∈ l → (r_time a ≤ r_time r)%N) →
  chronological (l ++ [r]).
Proof.
  intros Hl Hr i j a b Hij Ha Hb.
  apply lookup_snoc_Some in Ha as [[Hi Ha]|[Hi <-]];
    apply lookup_snoc_Some in Hb as [[Hj Hb]|[Hj <-]].
  - exact (Hl i j a b Hij Ha Hb).
  - apply Hr. by eapply list_elem_of_lookup_2.
  - lia.
  - lia.
Qed.

Lemma timely_expire sel st t :
  wf sel st → t ∈ timers st →
  chronological (requests st) →
  (∀ r, r ∈ requests st → (r_time r ≤ clock st)%N) →
  chronological (requests (expire t st))
  ∧ ∀ r, r ∈ requests (expire t st) → (r_time r ≤ clock (expire t st))%N.
Proof.
  intros Hwf Ht Hc Hb.
  pose proof (wf_due _ _ Hwf t Ht) as Hdue.
  destruct (expire_spec _ _ _ Hwf Ht) as (e & _ & _ & ->). cbn. split.
  - apply chronological_snoc; [done|]. intros a Ha. cbn.
    specialize (Hb a Ha). lia.
  - intros r [Hr| ->%list_elem_of_singleton]%elem_of_app; [|done].
    specialize (Hb r Hr). lia.
Qed.

Lemma timely_run_timers sel fuel limit st :
  wf sel st →
  chronological (requests st) →
  (∀ r, r ∈ requests st → (r_time r ≤ clock st)%N) →
  chronological (requests (run_timers fuel limit st))
  ∧ ∀ r, r ∈ requests (run_timers fuel limit st) →
      (r_time r ≤ clock (run_timers fuel limit st))%N.
Proof.
  revert st. induction fuel as [|fuel IH]; intros st Hwf Hc Hb; [done|].
  cbn. destruct (next_due limit (timers st)) as [t|] eqn:Hnext; [|done].
  destruct (next_due_earliest _ _ _ Hnext) as [Ht Hmin].
  destruct (timely_expire _ _ _ Hwf Ht Hc Hb) as [Hc1 Hb1].
  apply IH; [by apply expire_wf|done|done].
Qed.

Lemma timely_step sel a st :
  wf sel st →
  chronological (requests st) →
  (∀ r, r ∈ requests st → (r_time r ≤ clock st)%N) →
  chronological (requests (step a st))
  ∧ ∀ r, r ∈ requests (step a st) → (r_time r ≤ clock (step a st))%N.
Proof.
  intros Hwf Hc Hb. destruct a as [el ty|el k v|e0|dt|k o|el cs]; cbn [step].
  - rewrite (dispatch_spec sel) by done. case_bool_decide; [|done].
    by destruct (scheduleSave_cases sel st el Hwf) as [->| ->].
  - done.
  - done.
  - unfold wait. cbn.
    destruct (timely_run_timers sel (length (timers st)) (clock st + dt)%N
                st Hwf Hc Hb) as [Hc1 Hb1].
    destruct (run_timers_spec sel (length (timers st)) (clock st + dt)%N st
                Hwf) as (_ & _ & _ & Hle); [done|].
    split; [done|]. intros r Hr. specialize (Hb1 r Hr). lia.
  - rewrite settle_spec. done.
  - done.
Qed.

Lemma requests_grow sel acts st :
  wf sel st → requests st `prefix_of` requests (run acts st).
Proof.
  revert st. induction acts as [|a acts IH]; intros st Hwf; [done|].
  rewrite run_cons.
  destruct (step_new_requests sel a st Hwf) as (new & Hreq & _).
  transitivity (requests (step a st)).
  - rewrite Hreq. by apply prefix_app_r.
  - apply IH. by apply step_wf.
Qed.

Lemma timely_run sel acts st :
  wf sel st →
  chronological (requests st) →
  (∀ r, r ∈ requests st → (r_time r ≤ clock st)%N) →
  chronological (requests (run acts st))
  ∧ ∀ r, r ∈ requests (run acts st) → (r_time r ≤ clock (run acts st))%N.
Proof.
  revert st. induction acts as [|a acts IH]; intros st Hwf Hc Hb; [done|].
  rewrite run_cons.
  destruct (timely_step sel a st Hwf Hc Hb) as [Hc1 Hb1].
  apply IH; [by apply step_wf|done|done].
Qed.

(** X7.  The network log only grows, and in order of time: the calls of a
    reachable state are stamped in non-decreasing order, none later than the
    current clock, and whatever happens next keeps every call already
    logged, unchanged and in place. *)
Theorem log_is_chronological_and_append_only now doc acts :
  let st := run acts (load now doc) in
  chronological (requests st)
  ∧ (∀ r, r ∈ requests st → (r_time r ≤ clock st)%N)
  ∧ ∀ more, requests st `prefix_of` requests (run more st).
Proof.
  intros st. subst st.
  destruct (timely_run _ acts (load now doc) (load_wf now doc)) as [Hc Hb].
  - rewrite load_no_requests. by intros i j a b _ Ha.
  - rewrite load_no_requests. intros r Hr. by inversion Hr.
  - split; [done|]. split; [done|].
    intros more. apply (requests_grow _ more _ (reachable_wf now doc acts)).
Qed.

Lemma log_is_chronological_and_append_only_witness :
  (r_time (Request 800 0 "/save/42" "POST" [("X-Requested-With", "fetch")]
             [("notes", "late")] multipart_form_data)
   ≤ r_time (Request 1300 1 "/save/7" "POST" [("X-Requested-With", "fetch")]
               [("hours", "9")] multipart_form_data))%N.
Proof.
  destruct (log_is_chronological_and_append_only 0 [shift_form; other_form]
              [Edit 0 0 "late"; Dispatch 0 "input"; Wait 500;
               Edit 1 0 "9"; Dispatch 1 "change"; Wait 500; Wait 500])
    as (Hsorted & _).
  apply (Hsorted 0 1); [lia|reflexivity|reflexivity].
Defined.

(** ** Every event is saved, changed or not *)

(** X8.  The handler does not look at what changed: on a marked form with
    an endpoint, two rounds of one event and a quiet period of at least
    800 ms send two calls, each 800 ms after its event, and when nothing
    was edited in between the second call repeats the first one's URL and
    body. *)
Theorem unchanged_form_is_saved_again now doc pre form e0 ty dt :
  doc !! form = Some e0 →
  matches_autosave e0 = true →
  truthy_string (dataset_saveUrl e0) = true →
  qualifying ty →
  (DELAY ≤ dt)%N →
  let st := run pre (load now doc) in
  ∃ e, document st !! form = Some e
     ∧ requests_of form
         (run [Dispatch form ty; Wait dt; Dispatch form ty; Wait dt] st)
       = requests_of form st
         ++ [save_request form e (clock st + DELAY);
             save_request form e (clock st + dt + DELAY)].
Proof.
  intros Hdoc Hm Hurl Hq Hdt st.
  destruct (autosaved_form now doc pre form e0 Hdoc Hm Hurl)
    as (Hsel & e & Hd & Hs & Hu).
  pose proof (reachable_wf now doc pre) as Hwf. fold st in Hwf, Hd.
  exists e. split; [done|].
  change (run [Dispatch form ty; Wait dt; Dispatch form ty; Wait dt] st)
    with (wait dt (dispatch form ty (wait dt (dispatch form ty st)))).
  destruct (single_cycle _ st form e ty dt Hwf Hsel Hd Hu Hq Hdt)
    as (Hwf1 & Hd1 & _ & Hr1).
  destruct (wait_spec _ dt (dispatch form ty st) (dispatch_wf _ form ty st Hwf))
    as (_ & _ & Hck).
  destruct (dispatch_self_timers _ st form e ty Hwf Hsel Hq Hd Hu)
    as (_ & _ & _ & Hcd).
  rewrite Hcd in Hck.
  set (st1 := wait dt (dispatch form ty st)) in *.
  assert (document st1 !! form = Some e) as Hdoc1 by (by rewrite Hd1).
  destruct (single_cycle _ st1 form e ty dt Hwf1 Hsel Hdoc1 Hu Hq Hdt)
    as (_ & _ & _ & ->).
  by rewrite Hr1, Hck, <- app_assoc.
Qed.

Lemma unchanged_form_is_saved_again_witness :
  ∃ e, document (load 0 [shift_form]) !! 0 = Some e
     ∧ requests_of 0
         (run [Dispatch 0 "input"; Wait 1000; Dispatch 0 "input"; Wait 1000]
            (load 0 [shift_form]))
       = requests_of 0 (load 0 [shift_form])
         ++ [save_request 0 e (0 + DELAY); save_request 0 e (0 + 1000 + DELAY)].
Proof.
  apply (unchanged_form_is_saved_again 0 [shift_form] [] 0 shift_form
           "input" 1000).
  - reflexivity.
  - reflexivity.
  - reflexivity.
  - left. reflexivity.
  - vm_compute. discriminate.
Defined.

(** ** Every call answers an event *)

Lemma load_clock now doc : clock (load now doc) = now.
Proof.
  unfold load.
  by destruct (forEach_spec (autosaveForms doc)
                 (State now doc ∅ [] 1%N [] [] [] []))
    as (-> & _).
Qed.

Lemma event_times_silent form now a acts :
  silent form a = true →
  event_times form now (a :: acts) = event_times form now acts.
Proof.
  destruct a as [el ty|el k v|e0|dt|k o|el cs]; cbn; try done.
  intros Hs. by rewrite (proj1 (negb_true_iff _) Hs).
Qed.

Lemma event_origin_run sel form acts st (T : list N) :
  wf sel st →
  (∀ r, r ∈ requests_of form st → ∃ τ, τ ∈ T ∧ r_time r = (τ + DELAY)%N) →
  (∀ t, t ∈ timers_of form st → ∃ τ, τ ∈ T ∧ t_due t = (τ + DELAY)%N) →
  (∀ r, r ∈ requests_of form (run acts st) →
     ∃ τ, τ ∈ T ++ event_times form (clock st) acts
        ∧ r_time r = (τ + DELAY)%N)
  ∧ (∀ t, t ∈ timers_of form (run acts st) →
     ∃ τ, τ ∈ T ++ event_times form (clock st) acts
        ∧ t_due t = (τ + DELAY)%N).
Proof.
  revert st T. induction acts as [|a acts IH]; intros st T Hwf Hr Ht.
  - cbn. rewrite app_nil_r. done.
  - rewrite run_cons.
    pose proof (step_wf sel a st Hwf) as Hwf1.
    destruct (silent form a) eqn:Hs.
    { destruct (silent_frame sel st form a Hwf Hs) as [(Hc & Hts & Hrs & _) _].
      rewrite (event_times_silent form _ a acts Hs), <- Hc.
      apply IH; [done| |]; by rewrite ?Hrs, ?Hts. }
    destruct a as [el ty|el k v|e0|dt|k o|el cs]; cbn in Hs; try done.
    + apply negb_false_iff, Nat.eqb_eq in Hs as ->.
      assert (event_times form (clock st) (Dispatch form ty :: acts)
              = (if bool_decide (qualifying ty) then [clock st] else [])
                ++ event_times form (clock st) acts) as ->.
      { cbn. rewrite Nat.eqb_refl. cbn.
        by destruct (bool_decide (qualifying ty)). }
      rewrite app_assoc.
      assert (clock (step (Dispatch form ty) st) = clock st
              ∧ requests (step (Dispatch form ty) st) = requests st)
        as [Hck Hreq].
      { cbn [step]. rewrite (dispatch_spec sel) by done.
        case_bool_decide; [|done].
        by destruct (scheduleSave_cases sel st form Hwf) as [->| ->]. }
      replace (event_times form (clock st) acts)
        with (event_times form (clock (step (Dispatch form ty) st)) acts)
        by (by rewrite Hck).
      apply IH; [done| |].
      * intros r Hin. unfold requests_of in Hin. rewrite Hreq in Hin.
        destruct (Hr r Hin) as (τ & Hτ & Htime).
        exists τ. split; [|done]. apply elem_of_app. by left.
      * cbn [step]. rewrite (dispatch_spec sel) by done.
        case_bool_decide as Hrun.
        -- destruct Hrun as [_ Hq]. rewrite (bool_decide_eq_true_2 _ Hq).
           destruct (scheduleSave_cases sel st form Hwf) as [->| ->].
           ++ intros t Hin. destruct (Ht t Hin) as (τ & Hτ & Htime).
              exists τ. split; [|done]. apply elem_of_app. by left.
           ++ unfold timers_of. cbn. rewrite timers_of_scheduled.
              intros t ->%list_elem_of_singleton. exists (clock st).
              split; [|done]. apply elem_of_app. right. left.
        -- intros t Hin. destruct (Ht t Hin) as (τ & Hτ & Htime).
           exists τ. split; [|done]. apply elem_of_app. by left.
    + cbn [step] in *. cbn [event_times].
      destruct (wait_spec sel dt st Hwf) as (_ & Hadv & Hck).
      rewrite <- Hck. apply IH; [done| |].
      * destruct (wait_form_gen sel st form dt Hwf) as (_ & -> & _).
        intros r [Hin|Hin]%elem_of_app; [by apply Hr|].
        destruct (document st !! form) as [e|]; [|by inversion Hin].
        cbn in Hin. unfold fired in Hin.
        apply list_elem_of_fmap in Hin as (d & -> & [_ Hd]%list_elem_of_filter).
        apply list_elem_of_fmap in Hd as (t & -> & Hin).
        destruct (Ht t Hin) as (τ & Hτ & Htime). exists τ. done.
      * destruct Hadv as (_ & _ & _ & _ & _ & Hts & _).
        intros t Hin. apply Ht. unfold timers_of in *. rewrite Hts in Hin.
        apply list_elem_of_filter in Hin as [Ho [_ Hin]%list_elem_of_filter].
        by apply list_elem_of_filter.
Qed.

(** X9.  No call is sent early, late or unprompted: every call of a form
    is stamped exactly 800 ms after the moment an "input" or "change" event
    was dispatched to that form, and every pending timer of the form is due
    exactly 800 ms after such a moment. *)
Theorem every_call_follows_an_event now doc acts form :
  let st := run acts (load now doc) in
  (∀ r, r ∈ requests_of form st →
     ∃ τ, τ ∈ event_times form now acts ∧ r_time r = (τ + DELAY)%N)
  ∧ (∀ t, t ∈ timers_of form st →
     ∃ τ, τ ∈ event_times form now acts ∧ t_due t = (τ + DELAY)%N).
Proof.
  intros st. subst st.
  pose proof (event_origin_run _ form acts (load now doc) []
                (load_wf now doc)) as Hrun.
  rewrite load_clock in Hrun. cbn [app] in Hrun. apply Hrun.
  - unfold requests_of. rewrite load_no_requests.
    intros r Hr. by inversion Hr.
  - unfold timers_of. rewrite load_no_timers.
    intros t Ht. by inversion Ht.
Qed.

Lemma every_call_follows_an_event_witness :
  ∃ τ, τ ∈ event_times 0 0 typing_scenario
     ∧ r_time (Request 1100 0 "/save/42" "POST"
                 [("X-Requested-With", "fetch")] [("notes", "xy")]
                 multipart_form_data)
       = (τ + DELAY)%N.
Proof.
  destruct (every_call_follows_an_event 0 [shift_form] typing_scenario 0)
    as (Hsent & _).
  apply Hsent. vm_compute. left.
Defined.

(** ** What loading does *)

Lemma listeners_for_length sel :
  length (listeners_for sel) = 2 * length sel.
Proof.
  induction sel as [|a sel IH]; [done|].
  change (listeners_for (a :: sel))
    with ((a, "input") :: (a, "change") :: listeners_for sel).
  cbn [length]. lia.
Qed.

(** X10.  Running the script only binds: it selects exactly the elements
    of the document that carry the class [autosave-form], each once, gives
    each of them a [null] handle and one listener for "input" and one for
    "change", and leaves every other element without closure; it schedules
    no timer, sends no call and does not touch the document. *)
Theorem load_only_binds_marked_elements now doc :
  let st := load now doc in
  NoDup (autosaveForms doc)
  ∧ (∀ el, el ∈ autosaveForms doc ↔
       ∃ e, doc !! el = Some e ∧ matches_autosave e = true)
  ∧ (∀ el, timeoutId st !! el =
       if decide (el ∈ autosaveForms doc) then Some None else None)
  ∧ listeners st = listeners_for (autosaveForms doc)
  ∧ length (listeners st) = 2 * length (autosaveForms doc)
  ∧ timers st = []
  ∧ requests st = []
  ∧ document st = doc
  ∧ clock st = now.
Proof.
  intros st. subst st.
  destruct (forEach_spec (autosaveForms doc)
              (State now doc ∅ [] 1%N [] [] [] []))
    as (H1 & H2 & H3 & H4 & H5 & H6 & H7 & H8 & H9).
  fold (load now doc) in *. cbn in H1, H2, H4, H5, H8, H9.
  split; [apply querySelectorAll_NoDup|]. split; [|split; [|split; [|split]]].
  - intros el. unfold autosaveForms. rewrite querySelectorAll_elem.
    rewrite Nat.sub_0_r. split; [by intros [_ ?]|]. intros ?. split; [lia|done].
  - intros el. rewrite H9. by case_decide.
  - done.
  - rewrite H8. apply listeners_for_length.
  - done.
Qed.

Example load_of_two_marked_and_one_unmarked :
  listeners (load 0 [shift_form; unmarked_form; other_form])
  = [(0, "input"); (0, "change"); (2, "input"); (2, "change")].
Proof. reflexivity. Qed.

Lemma load_only_binds_marked_elements_witness :
  0 ∈ autosaveForms [shift_form; unmarked_form; other_form].
Proof.
  destruct (load_only_binds_marked_elements 0
              [shift_form; unmarked_form; other_form]) as (_ & Hsel & _).
  apply Hsel. exists shift_form. split; reflexivity.
Defined.
